(** * clean_images: metadata extraction, reporting and stripping

    A shallow embedding of [src/clean_images.py] (class
    [ImageMetadataCleaner]).  Python text is a [string] holding the UTF-8
    encoding of the text; Python dictionaries are association lists in
    insertion order with pairwise distinct keys; the file system and the
    handler's [processed_files] set are explicit state; Pillow sits behind
    an interface. *)

From Stdlib Require Import ZArith Ascii String List Bool Lia DecimalString.
From Stdlib Require OrderedTypeEx.
From stdpp Require Import gmap strings list fin_maps sorting.

Local Open Scope string_scope.
Set Warnings "-register-all".

(** ** Exceptions and results *)

(** The exception classes the source distinguishes: line 87 catches
    [AttributeError] and [TypeError] only, the two outer handlers catch
    every [Exception].  [KeyError] is the one class the [get] of a mapping
    passes over (line 73). *)
Inductive exn_class := AttributeError | TypeError | KeyError | OtherException.

Record exn := Exn { exn_cls : exn_class; exn_msg : string }.

Inductive outcome (A : Type) :=
| Ret (a : A)
| Raise (e : exn).
Arguments Ret {A} a.
Arguments Raise {A} e.

Definition exn_class_eqb (a b : exn_class) : bool :=
  match a, b with
  | AttributeError, AttributeError | TypeError, TypeError
  | KeyError, KeyError | OtherException, OtherException => true
  | _, _ => false
  end.

(** [isinstance(e, (AttributeError, TypeError))] *)
Definition is_attr_or_type_error (e : exn) : bool :=
  exn_class_eqb (exn_cls e) AttributeError || exn_class_eqb (exn_cls e) TypeError.

(** ** A state-and-exception monad

    [SE St A] is a Python statement sequence acting on mutable state [St]:
    when it raises, the state reached so far is kept, as for a dictionary
    mutated inside a [try] block. *)
Definition SE (St A : Type) : Type := St -> St * outcome A.

Definition ret {St A} (a : A) : SE St A := fun s => (s, Ret a).
Definition raise {St A} (e : exn) : SE St A := fun s => (s, Raise e).
Definition bind {St A B} (m : SE St A) (k : A -> SE St B) : SE St B :=
  fun s => match m s with
           | (s', Ret a) => k a s'
           | (s', Raise e) => (s', Raise e)
           end.
Definition modify {St} (f : St -> St) : SE St unit := fun s => (f s, Ret tt).
Definition gets {St A} (f : St -> A) : SE St A := fun s => (s, Ret (f s)).
Definition lift_outcome {St A} (o : outcome A) : SE St A := fun s => (s, o).

(** [try: body except <classes sel>: handler] *)
Definition try_except {St A} (body : SE St A) (sel : exn -> bool)
    (handler : exn -> SE St A) : SE St A :=
  fun s => match body s with
           | (s', Raise e) => if sel e then handler e s' else (s', Raise e)
           | r => r
           end.

(** [except Exception] and a bare [except]: the model's exceptions are
    all instances of [Exception]. *)
Definition any_Exception (_ : exn) : bool := true.
Definition bare_except (_ : exn) : bool := true.

Declare Scope se_scope.
Delimit Scope se_scope with se.
Notation "x <- m ;; k" := (bind m (fun x => k))
  (at level 100, m at next level, right associativity) : se_scope.
Notation "m ;;; k" := (bind m (fun _ => k))
  (at level 100, right associativity) : se_scope.
Local Open Scope se_scope.

(** [for x in l: body x]; a [continue] is the body returning early. *)
Fixpoint for_each {St X} (l : list X) (body : X -> SE St unit) : SE St unit :=
  match l with
  | [] => ret tt
  | x :: l' => body x ;;; for_each l' body
  end.

(** ** Python values *)

Inductive pykey :=
| KInt (n : Z)
| KStr (s : string).

Inductive pyval :=
| VNone
| VInt (n : Z)
| VStr (s : string)
| VBytes (b : list Byte.byte)
| VTuple (l : list pyval)
| VList (l : list pyval)
| VDict (d : list (pykey * pyval))
| VOther (shown : string).
(** [VOther shown] stands for a value of any other type (float,
    [IFDRational], ...), kept with the text [str()] gives for it. *)

Abbreviation pydict := (list (pykey * pyval)).

Definition pykey_eqb (a b : pykey) : bool :=
  match a, b with
  | KInt m, KInt n => (m =? n)%Z
  | KStr s, KStr t => String.eqb s t
  | _, _ => false
  end.

(** [d.get(k)] *)
Fixpoint dict_get (d : pydict) (k : pykey) : option pyval :=
  match d with
  | [] => None
  | (k', v) :: d' => if pykey_eqb k' k then Some v else dict_get d' k
  end.

(** [d[k] = v]: an existing key keeps its position, a new key goes last. *)
Fixpoint dict_set (d : pydict) (k : pykey) (v : pyval) : pydict :=
  match d with
  | [] => [(k, v)]
  | (k', v') :: d' =>
      if pykey_eqb k' k then (k', v) :: d' else (k', v') :: dict_set d' k v
  end.

Definition dict_keys (d : pydict) : list pykey := map fst d.

(** [k in d] *)
Definition dict_mem (d : pydict) (k : pykey) : bool :=
  match dict_get d k with Some _ => true | None => false end.

(** ** Text *)

Definition ascii_lower (c : ascii) : ascii :=
  let n := N_of_ascii c in
  if ((65 <=? n) && (n <=? 90))%N then ascii_of_N (n + 32) else c.

(** [s.lower()], on the ASCII letters; other characters are left as they
    are.  What the source lowers is ASCII: its own terms and the tag names
    of [PIL.ExifTags]. *)
Fixpoint lower (s : string) : string :=
  match s with
  | EmptyString => EmptyString
  | String c t => String (ascii_lower c) (lower t)
  end.

(** [needle in hay] on text *)
Fixpoint str_in (needle hay : string) : bool :=
  String.prefix needle hay ||
  match hay with
  | EmptyString => false
  | String _ t => str_in needle t
  end.

(** [sep.join(l)] *)
Fixpoint join (sep : string) (l : list string) : string :=
  match l with
  | [] => ""
  | [x] => x
  | x :: l' => x +:+ sep +:+ join sep l'
  end.

(** [str(n)] for an [int] *)
Definition str_int (n : Z) : string := NilZero.string_of_int (Z.to_int n).

(** [s * n] *)
Fixpoint str_repeat (s : string) (n : nat) : string :=
  match n with
  | O => ""
  | S n' => s +:+ str_repeat s n'
  end.

(** *** [str()] and [repr()]

    [repr] of text and bytes follows CPython: single quotes unless the
    text holds a single quote and no double quote; backslash, the quote,
    tab, newline and carriage return are escaped, other control characters
    are written [\xhh].  In bytes every byte from 0x7f up is written
    [\xhh]; in text the bytes from 0x80 up belong to non-ASCII characters,
    which are taken to be printable and kept. *)

Definition hex_digit (n : N) : ascii :=
  if (n <? 10)%N then ascii_of_N (48 + n) else ascii_of_N (87 + n).

Definition hex_escape (c : ascii) : string :=
  let n := N_of_ascii c in
  String "\" (String "x" (String (hex_digit (n / 16)) (String (hex_digit (n mod 16)) ""))).

Definition has_char (c : ascii) (s : string) : bool :=
  str_in (String c "") s.

Definition double_quote : ascii := ascii_of_N 34.

Definition repr_quote (s : string) : ascii :=
  if has_char "'" s && negb (has_char double_quote s) then double_quote else "'"%char.

Fixpoint repr_chars (quote : ascii) (is_bytes : bool) (s : string) : string :=
  match s with
  | EmptyString => EmptyString
  | String c t =>
      let n := N_of_ascii c in
      let rest := repr_chars quote is_bytes t in
      if Ascii.eqb c quote || Ascii.eqb c "\" then String "\" (String c rest)
      else if (n =? 9)%N then "\t" +:+ rest
      else if (n =? 10)%N then "\n" +:+ rest
      else if (n =? 13)%N then "\r" +:+ rest
      else if (n <? 32)%N || (n =? 127)%N then hex_escape c +:+ rest
      else if (128 <=? n)%N && is_bytes then hex_escape c +:+ rest
      else String c rest
  end.

Definition repr_text (is_bytes : bool) (s : string) : string :=
  let q := repr_quote s in
  String q (repr_chars q is_bytes s) +:+ String q "".

Definition bytes_to_string (b : list Byte.byte) : string :=
  string_of_list_byte b.

Definition key_str (k : pykey) : string :=
  match k with KInt n => str_int n | KStr s => s end.

Definition key_repr (k : pykey) : string :=
  match k with KInt n => str_int n | KStr s => repr_text false s end.

Fixpoint py_repr (v : pyval) : string :=
  match v with
  | VNone => "None"
  | VInt n => str_int n
  | VStr s => repr_text false s
  | VBytes b => "b" +:+ repr_text true (bytes_to_string b)
  | VTuple l =>
      "(" +:+ join ", " (map py_repr l) +:+
      (match l with [_] => "," | _ => "" end) +:+ ")"
  | VList l => "[" +:+ join ", " (map py_repr l) +:+ "]"
  | VDict d =>
      "{" +:+ join ", " (map (fun kv => key_repr (fst kv) +:+ ": " +:+ py_repr (snd kv)) d)
      +:+ "}"
  | VOther shown => shown
  end.

(** [str(v)], also what an f-string field [{v}] gives *)
Definition py_str (v : pyval) : string :=
  match v with
  | VStr s => s
  | _ => py_repr v
  end.

(** A byte of the form 10xxxxxx continues a UTF-8 character. *)
Definition is_continuation (c : ascii) : bool :=
  let n := N_of_ascii c in (128 <=? n)%N && (n <? 192)%N.

(** [len(s)]: the number of characters of the text *)
Fixpoint text_len (s : string) : nat :=
  match s with
  | EmptyString => 0
  | String c t => if is_continuation c then text_len t else S (text_len t)
  end.

(** [s[:n]]: the first [n] characters of the text *)
Fixpoint text_take (n : nat) (s : string) : string :=
  match s with
  | EmptyString => EmptyString
  | String c t =>
      if is_continuation c then String c (text_take n t)
      else match n with
           | O => EmptyString
           | S n' => String c (text_take n' t)
           end
  end.

(** *** [bytes.decode('utf-8', errors='ignore')]

    Well-formed sequences are kept; an ill-formed one is dropped as
    CPython's decoder delimits it: the lead byte with the continuation
    bytes accepted so far, or everything left when the input ends inside a
    sequence. *)
Definition byte_in (lo hi : N) (c : Byte.byte) : bool :=
  let n := Byte.to_N c in (lo <=? n)%N && (n <=? hi)%N.

(** The range allowed for the second byte after lead byte [c]. *)
Definition second_ok (c c1 : Byte.byte) : bool :=
  let n := Byte.to_N c in
  if (n =? 224)%N then byte_in 160 191 c1
  else if (n =? 237)%N then byte_in 128 159 c1
  else if (n =? 240)%N then byte_in 144 191 c1
  else if (n =? 244)%N then byte_in 128 143 c1
  else byte_in 128 191 c1.

Definition ch (c : Byte.byte) : ascii := ascii_of_byte c.

Fixpoint utf8_decode_ignore (b : list Byte.byte) : string :=
  match b with
  | [] => ""
  | c :: r0 =>
      if byte_in 0 127 c then String (ch c) (utf8_decode_ignore r0)
      else if byte_in 194 223 c then
        match r0 with
        | [] => ""
        | c1 :: r1 =>
            if byte_in 128 191 c1
            then String (ch c) (String (ch c1) (utf8_decode_ignore r1))
            else utf8_decode_ignore r0
        end
      else if byte_in 224 239 c then
        match r0 with
        | [] => ""
        | c1 :: r1 =>
            if second_ok c c1 then
              match r1 with
              | [] => ""
              | c2 :: r2 =>
                  if byte_in 128 191 c2
                  then String (ch c) (String (ch c1) (String (ch c2) (utf8_decode_ignore r2)))
                  else utf8_decode_ignore r1
              end
            else utf8_decode_ignore r0
        end
      else if byte_in 240 244 c then
        match r0 with
        | [] => ""
        | c1 :: r1 =>
            if second_ok c c1 then
              match r1 with
              | [] => ""
              | c2 :: r2 =>
                  if byte_in 128 191 c2 then
                    match r2 with
                    | [] => ""
                    | c3 :: r3 =>
                        if byte_in 128 191 c3
                        then String (ch c) (String (ch c1) (String (ch c2)
                               (String (ch c3) (utf8_decode_ignore r3))))
                        else utf8_decode_ignore r2
                    end
                  else utf8_decode_ignore r1
              end
            else utf8_decode_ignore r0
        end
      else utf8_decode_ignore r0
  end.

(** [value.decode('utf-8', errors='ignore')] as a call: with the
    [ignore] handler the decoder has no failure to report. *)
Definition bytes_decode_utf8_ignore (b : list Byte.byte) : outcome string :=
  Ret (utf8_decode_ignore b).

(** ** The reporter: [display_metadata]

    The reporter's state is the output stream, one entry per [print]. *)

Definition print (line : string) : SE (list string) unit :=
  modify (fun out : list string => (out ++ [line])%list).

(** *** [sorted(d.items())]

    Items are [(key, value)] tuples; the keys of a dictionary are pairwise
    distinct, so the tuple order is decided on the keys.  Text is ordered
    by code points, which is the byte order of its encoding; an [int] and
    a [str] have no order and [<] raises.  The list is built by insertion,
    the new item on the left of each [<] as in CPython's sort. *)

Definition type_name (k : pykey) : string :=
  match k with KInt _ => "int" | KStr _ => "str" end.

Definition key_lt (a b : pykey) : outcome bool :=
  match a, b with
  | KInt m, KInt n => Ret (m <? n)%Z
  | KStr s, KStr t => Ret (String.ltb s t)
  | _, _ =>
      Raise (Exn TypeError
        ("'<' not supported between instances of '" +:+ type_name a +:+
         "' and '" +:+ type_name b +:+ "'"))
  end.

Fixpoint insert_item (x : pykey * pyval) (l : pydict) : outcome pydict :=
  match l with
  | [] => Ret [x]
  | y :: l' =>
      match key_lt (fst x) (fst y) with
      | Raise e => Raise e
      | Ret true => Ret (x :: l)
      | Ret false =>
          match insert_item x l' with
          | Ret r => Ret (y :: r)
          | Raise e => Raise e
          end
      end
  end.

Fixpoint sorted_onto (acc : pydict) (l : pydict) : outcome pydict :=
  match l with
  | [] => Ret acc
  | x :: l' =>
      match insert_item x acc with
      | Ret acc' => sorted_onto acc' l'
      | Raise e => Raise e
      end
  end.

Definition sorted (d : pydict) : outcome pydict := sorted_onto [] d.

(** *** The sensitivity checks (lines 148-155, 164 and 179) *)

Definition sensitive_fields : list string :=
  [ "SerialNumber"; "BodySerialNumber"; "LensSerialNumber";
    "CameraSerialNumber"; "InternalSerialNumber"; "Serial Number";
    "Make"; "Model"; "Software"; "Artist"; "Copyright";
    "OwnerName"; "GPSInfo"; "GPSLatitude"; "GPSLongitude";
    "GPSAltitude"; "DateTime"; "DateTimeOriginal"; "DateTimeDigitized";
    "MakerNote"; "UserComment"; "ImageUniqueID"; "DocumentName" ].

(** [any(sensitive.lower() in key.lower() for sensitive in sensitive_fields)] *)
Definition is_sensitive (key : string) : bool :=
  existsb (fun sensitive => str_in (lower sensitive) (lower key)) sensitive_fields.

(** ['serial' in key.lower()] *)
Definition is_serial (key : string) : bool :=
  str_in "serial" (lower key).

Definition descriptive_fields : list string :=
  [ "Image Format"; "Image Mode"; "Image Size" ].

(** [key in ('Image Format', 'Image Mode', 'Image Size')] *)
Definition is_descriptive (key : pykey) : bool :=
  existsb (fun f => pykey_eqb key (KStr f)) descriptive_fields.

Definition lock_marker : string := "üîí ".
Definition warn_serial : string := " ‚ö†Ô∏è Device Serial Number".
Definition warn_sensitive : string := " ‚ö†Ô∏è Sensitive".

(** [key.lower()]: an [int] has no such method. *)
Definition key_lower {St} (key : pykey) : SE St string :=
  match key with
  | KStr s => ret (lower s)
  | KInt _ => raise (Exn AttributeError "'int' object has no attribute 'lower'")
  end.

(** The body of the loop of lines 158-184 for one item. *)
Definition display_item (key : pykey) (value : pyval) : SE (list string) unit :=
  if is_descriptive key then ret tt
  else
    _ <- key_lower key ;;
    let is_sens := is_sensitive (key_str key) in
    let marker := if is_sens then lock_marker else "   " in
    match pykey_eqb key (KStr "GPSInfo"), value with
    | true, VDict d =>
        print ("    " +:+ marker +:+ key_str key +:+ " (Location Data):") ;;;
        items <- lift_outcome (sorted d) ;;
        for_each items (fun kv =>
          print ("      " +:+ key_str (fst kv) +:+ ": " +:+ py_str (snd kv)))
    | _, _ =>
        let value_str := py_str value in
        let value_str :=
          if (100 <? text_len value_str)%nat
          then text_take 100 value_str +:+ "..." else value_str in
        if is_serial (key_str key) then
          print ("    " +:+ marker +:+ key_str key +:+ ": " +:+ value_str +:+ warn_serial)
        else if is_sens then
          print ("    " +:+ marker +:+ key_str key +:+ ": " +:+ value_str +:+ warn_sensitive)
        else
          print ("    " +:+ key_str key +:+ ": " +:+ value_str)
    end.

(** [not metadata] *)
Definition dict_is_empty (d : pydict) : bool :=
  match d with [] => true | _ => false end.

Definition display_metadata (metadata : pydict) (label : string) : SE (list string) unit :=
  if dict_is_empty metadata then
    print ("  " +:+ label +:+ ": No metadata found")
  else
    print ("  " +:+ label +:+ ":") ;;;
    items <- lift_outcome (sorted metadata) ;;
    for_each items (fun kv => display_item (fst kv) (snd kv)).

(** ** Pillow

    What the source uses of Pillow: the two tag tables of [PIL.ExifTags],
    [Image.open], the attributes and methods of the opened image, and the
    encoder behind [img.save].  File contents ([filedata]) and images are
    abstract.  [getexif] gives the primary tag table as its items in
    iteration order; an item is decoded when it is read, which may raise.
    [_getexif] is the deprecated reader: it raises [AttributeError] where
    the image class has no such method, else it gives [None] or a
    dictionary keyed by tag id.  [img.save] is in two parts, as in Pillow:
    [load] decodes the pixels of the image, before the target is opened;
    [save] gives the content the opened target is left with and whether
    the encoder raised. *)

Record save_options := { quality : option Z; optimize : bool }.

Class Pillow := {
  TAGS : Z -> option string;
  GPSTAGS : Z -> option string;
  filedata : Type;
  image : Type;
  Image_open : filedata -> outcome image;
  img_format : image -> pyval;
  img_mode : image -> string;
  img_size : image -> Z * Z;
  getexif : image -> outcome (list (Z * outcome pyval));
  _getexif : image -> outcome (option pydict);
  Image_new : string -> Z * Z -> Z * Z * Z -> image;
  convert : image -> string -> outcome image;
  split_last : image -> outcome image;
  paste : image -> image -> option image -> outcome image;
  load : image -> outcome unit;
  save : image -> string -> save_options -> filedata * outcome unit
}.

(** ** The extractor: [get_metadata] *)

Section Extractor.
Context {P : Pillow}.

(** [table.get(k, k)]: an unknown id stays as it is. *)
Definition resolve (table : Z -> option string) (k : pykey) : pykey :=
  match k with
  | KInt n => match table n with Some name => KStr name | None => k end
  | KStr _ => k
  end.

(** [metadata[k] = v] *)
Definition store (k : pykey) (v : pyval) : SE pydict unit :=
  modify (fun metadata => dict_set metadata k v).

(** The loops of lines 81-84 and 102-105: a fresh dictionary filled with
    the sub-table's values under their resolved names. *)
Definition resolve_gps (gps_dict : pydict) : pydict :=
  fold_left (fun gps_data kv => dict_set gps_data (resolve GPSTAGS (fst kv)) (snd kv))
            gps_dict [].

(** Lines 65-69: the first key that [TAGS] names [GPSInfo]. *)
Definition find_gps_tag_id (exifdata : list (Z * outcome pyval)) : option Z :=
  fst <$> List.find (fun item =>
            match TAGS (fst item) with
            | Some name => String.eqb name "GPSInfo"
            | None => false
            end) exifdata.

(** [exifdata.get(tag_id)]: reading the item decodes it.  This is the
    [get] of [collections.abc.Mapping]: a [KeyError] from the read gives
    the default [None], any other exception goes on to the caller. *)
Fixpoint exif_get (exifdata : list (Z * outcome pyval)) (tag_id : Z)
    : outcome (option pyval) :=
  match exifdata with
  | [] => Ret None
  | (k, item) :: rest =>
      if (k =? tag_id)%Z then
        match item with
        | Ret v => Ret (Some v)
        | Raise e => if exn_class_eqb (exn_cls e) KeyError then Ret None else Raise e
        end
      else exif_get rest tag_id
  end.

(** Lines 75-88.  The result is [gps_info_resolved]; the flag is set by
    the last statement of the [try] block, so it is still false whenever
    the handler runs. *)
Definition legacy_gps (img : image) (gps_tag_id : Z) : SE pydict bool :=
  try_except
    (old_exif <- lift_outcome (_getexif img) ;;
     match old_exif with
     | Some old =>
         if negb (dict_is_empty old) && dict_mem old (KInt gps_tag_id) then
           match dict_get old (KInt gps_tag_id) with
           | Some (VDict gps_dict) =>
               store (KStr "GPSInfo") (VDict (resolve_gps gps_dict)) ;;;
               ret true
           | _ => ret false
           end
         else ret false
     | None => ret false
     end)
    is_attr_or_type_error
    (fun _ => ret false).

Definition ifd_offset_text (value : pyval) : string :=
  "IFD offset: " +:+ py_str value +:+
  " (GPS data pointer, not actual GPS coordinates)".

Definition len_bytes (b : list Byte.byte) : string :=
  str_int (Z.of_nat (length b)).

(** Lines 122-129: the value the general branch stores. *)
Definition coerce_value (value : pyval) : SE pydict pyval :=
  match value with
  | VBytes b =>
      try_except
        (text <- lift_outcome (bytes_decode_utf8_ignore b) ;; ret (VStr text))
        bare_except
        (fun _ => ret (VStr ("<bytes: " +:+ len_bytes b +:+ " bytes>")))
  | VTuple l | VList l => ret (VStr (join ", " (map py_str l)))
  | _ => ret value
  end.

(** The body of the loop of lines 92-130 for one decoded item. *)
Definition process_tag (gps_info_resolved : bool) (tag_id : Z) (value : pyval)
    : SE pydict unit :=
  let tag := resolve TAGS (KInt tag_id) in
  let is_gps := pykey_eqb tag (KStr "GPSInfo") in
  if is_gps && gps_info_resolved then ret tt
  else
    match is_gps, value with
    | true, VDict d =>
        try_except
          (store tag (VDict (resolve_gps d)))
          is_attr_or_type_error
          (fun _ => store tag (VStr (ifd_offset_text value)))
    | true, VInt _ => store tag (VStr (ifd_offset_text value))
    | _, _ =>
        if pykey_eqb tag (KStr "MakerNote") then
          match value with
          | VBytes b =>
              store tag (VStr ("<Proprietary data: " +:+ len_bytes b +:+
                               " bytes - May contain device serial numbers>"))
          | _ =>
              store tag (VStr "<Proprietary manufacturer data - May contain device serial numbers>")
          end
        else
          value' <- coerce_value value ;;
          store tag value'
    end.

Definition size_value (size : Z * Z) : pyval :=
  VTuple [VInt (fst size); VInt (snd size)].

(** Lines 64-88: the result is [gps_info_resolved]. *)
Definition gps_prepass (img : image) (exifdata : list (Z * outcome pyval))
    : SE pydict bool :=
  if negb (Nat.eqb (length exifdata) 0) then
    match find_gps_tag_id exifdata with
    | Some gps_tag_id =>
        gps_value <- lift_outcome (exif_get exifdata gps_tag_id) ;;
        match gps_value with
        | Some (VInt _) => legacy_gps img gps_tag_id
        | _ => ret false
        end
    | None => ret false
    end
  else ret false.

(** Lines 91-130 *)
Definition process_tags (exifdata : list (Z * outcome pyval))
    (gps_info_resolved : bool) : SE pydict unit :=
  if negb (Nat.eqb (length exifdata) 0) then
    for_each exifdata (fun item =>
      value <- lift_outcome (snd item) ;;
      process_tag gps_info_resolved (fst item) value)
  else ret tt.

(** Lines 133-135 *)
Definition store_image_info (img : image) : SE pydict unit :=
  store (KStr "Image Format") (img_format img) ;;;
  store (KStr "Image Mode") (VStr (img_mode img)) ;;;
  store (KStr "Image Size") (size_value (img_size img)).

(** The [try] block of lines 58-135; [opened] is what [Image.open] gave. *)
Definition get_metadata_body (opened : outcome image) : SE pydict unit :=
  img <- lift_outcome opened ;;
  exifdata <- lift_outcome (getexif img) ;;
  gps_info_resolved <- gps_prepass img exifdata ;;
  process_tags exifdata gps_info_resolved ;;;
  store_image_info img.

(** Lines 136-137 *)
Definition on_extract_error (e : exn) : SE pydict unit :=
  store (KStr "Error") (VStr (exn_msg e)).

(** [get_metadata] on what [Image.open] gave for the path: the dictionary
    starts empty and is returned after the [try] statement. *)
Definition get_metadata_of (opened : outcome image) : outcome pydict :=
  snd ((try_except (get_metadata_body opened) any_Exception on_extract_error ;;;
        gets (fun metadata => metadata)) []).

End Extractor.

(** ** Paths

    [Path(p)] keeps of the text [p] its components: the texts between the
    separators [/] that are neither empty nor a single dot.  Elsewhere a
    path is the text [str(Path(p))] gives. *)

(** [s.split('/')] *)
Fixpoint split_slash (s : string) : list string :=
  match s with
  | EmptyString => [EmptyString]
  | String c t =>
      if Ascii.eqb c "/" then EmptyString :: split_slash t
      else match split_slash t with
           | [] => [String c EmptyString]
           | x :: l => String c x :: l
           end
  end.

Definition is_component (x : string) : bool :=
  negb (String.eqb x "") && negb (String.eqb x ".").

(** The components [Path(p)] keeps, the root aside. *)
Definition path_parts (p : string) : list string :=
  List.filter is_component (split_slash p).

(** [Path(p).name]: the last component, the empty text when there is
    none. *)
Definition path_name (p : string) : string :=
  List.last (path_parts p) "".

(** The part of [s] from its last dot on, when it has a dot. *)
Fixpoint from_last_dot (s : string) : option string :=
  match s with
  | EmptyString => None
  | String c t =>
      match from_last_dot t with
      | Some r => Some r
      | None => if Ascii.eqb c "." then Some s else None
      end
  end.

(** [Path(p).suffix]: with [i = name.rfind('.')], the text [name[i:]] when
    [0 < i < len(name) - 1], else the empty text. *)
Definition path_suffix (p : string) : string :=
  match path_name p with
  | EmptyString => ""
  | String _ t =>
      match from_last_dot t with
      | Some r => if (1 <? String.length r)%nat then r else ""
      | None => ""
      end
  end.

Definition SUPPORTED_FORMATS : gset string :=
  {[ ".jpg"; ".jpeg"; ".png"; ".tiff"; ".tif"; ".bmp"; ".webp" ]}.

(** [is_image_file] *)
Definition is_image_file (file_path : string) : bool :=
  bool_decide (lower (path_suffix file_path) ∈ SUPPORTED_FORMATS).

(** ** The stripper: [clean_image_metadata] *)

Section Stripper.
Context {P : Pillow}.

(** A file: its content and the two time stamps [os.path.getmtime] and
    [os.utime] deal with, as the numbers Python reports them.  [f_atime]
    is the access time the file was last given by [os.utime] or by the
    write that created it.  A read may move a file's access time too, as
    the mount decides ([noatime], [relatime], [strictatime]); the world
    does not follow that, so [f_atime] is the file's access time up to its
    next read only, and nothing is concluded from it past a read. *)
Record file := File { f_data : filedata; f_mtime : Z; f_atime : Z }.

(** The state a call acts on: the file system, the handler's
    [processed_files], the two output streams, and the time a write stamps
    on a file. *)
Record world := World {
  w_fs : gmap string file;
  w_processed : gset string;
  w_stdout : list string;
  w_stderr : list string;
  w_clock : Z
}.

Definition set_fs (f : gmap string file -> gmap string file) (w : world) : world :=
  World (f (w_fs w)) (w_processed w) (w_stdout w) (w_stderr w) (w_clock w).
Definition set_processed (f : gset string -> gset string) (w : world) : world :=
  World (w_fs w) (f (w_processed w)) (w_stdout w) (w_stderr w) (w_clock w).
Definition set_stdout (out : list string) (w : world) : world :=
  World (w_fs w) (w_processed w) out (w_stderr w) (w_clock w).
Definition set_stderr (err : list string) (w : world) : world :=
  World (w_fs w) (w_processed w) (w_stdout w) err (w_clock w).

(** Runs a printing computation on the world's standard output. *)
Definition on_stdout {A} (m : SE (list string) A) : SE world A :=
  fun w => let (out, r) := m (w_stdout w) in (set_stdout out w, r).

Definition print_err (line : string) : SE world unit :=
  modify (fun w => set_stderr (w_stderr w ++ [line])%list w).

Definition no_such_file (path : string) : exn :=
  Exn OtherException ("[Errno 2] No such file or directory: " +:+ repr_text false path).

(** [Image.open(path)] *)
Definition open_image (w : world) (path : string) : outcome image :=
  match w_fs w !! path with
  | Some f => Image_open (f_data f)
  | None => Raise (no_such_file path)
  end.

(** [self.get_metadata(path)]: a read of the file; the world does not
    follow the access times that reads move and stays as it is. *)
Definition get_metadata (image_path : string) : SE world pydict :=
  fun w => (w, get_metadata_of (open_image w image_path)).

(** [os.path.getmtime(path)] *)
Definition os_path_getmtime (path : string) : SE world Z :=
  fun w => match w_fs w !! path with
           | Some f => (w, Ret (f_mtime f))
           | None => (w, Raise (no_such_file path))
           end.

(** [os.utime(path, (atime, mtime))] *)
Definition os_utime (path : string) (times : Z * Z) : SE world unit :=
  fun w => match w_fs w !! path with
           | Some f =>
               (set_fs (insert path (File (f_data f) (snd times) (fst times))) w, Ret tt)
           | None => (w, Raise (no_such_file path))
           end.

(** [img.save(path, format, **options)]: the pixels are decoded first,
    and an error there leaves the target as it was.  Then the target is
    opened for writing: a file that was there gets the content the encoder
    leaves and the time of the write, also when the encoder raises on the
    way.  A file that was not there is created, with that time as its
    access time too, and removed again when the encoder raises. *)
Definition img_save (img : image) (path : string) (format : string)
    (options : save_options) : SE world unit :=
  lift_outcome (load img) ;;;
  fun w =>
    let (data, r) := save img format options in
    match w_fs w !! path, r with
    | Some f, _ => (set_fs (insert path (File data (w_clock w) (f_atime f))) w, r)
    | None, Ret _ => (set_fs (insert path (File data (w_clock w) (w_clock w))) w, r)
    | None, Raise _ => (w, r)
    end.

Definition mode_in (mode : string) (modes : list string) : bool :=
  existsb (String.eqb mode) modes.

(** Lines 215-223: the image that is saved. *)
Definition normalize_mode (img : image) : SE world image :=
  if mode_in (img_mode img) ["RGBA"; "LA"; "P"] then
    let background := Image_new "RGB" (img_size img) (255, 255, 255)%Z in
    img <- (if String.eqb (img_mode img) "P"
            then lift_outcome (convert img "RGBA") else ret img) ;;
    mask <- (if mode_in (img_mode img) ["RGBA"; "LA"]
             then band <- lift_outcome (split_last img) ;; ret (Some band)
             else ret None) ;;
    lift_outcome (paste background img mask)
  else if negb (String.eqb (img_mode img) "RGB") then
    lift_outcome (convert img "RGB")
  else ret img.

(** Lines 227-236 *)
Definition save_by_suffix (img : image) (image_path : string) : SE world unit :=
  let suffix := lower (path_suffix image_path) in
  if mode_in suffix [".jpg"; ".jpeg"] then
    img_save img image_path "JPEG" {| quality := Some 95%Z; optimize := true |}
  else if String.eqb suffix ".png" then
    img_save img image_path "PNG" {| quality := None; optimize := true |}
  else if mode_in suffix [".tiff"; ".tif"] then
    img_save img image_path "TIFF" {| quality := None; optimize := false |}
  else if String.eqb suffix ".webp" then
    img_save img image_path "WEBP" {| quality := Some 95%Z; optimize := false |}
  else if String.eqb suffix ".bmp" then
    img_save img image_path "BMP" {| quality := None; optimize := false |}
  else ret tt.

(** Lines 212-236: the [with] block. *)
Definition reencode (image_path : string) : SE world unit :=
  img <- (fun w => (w, open_image w image_path)) ;;
  img <- normalize_mode img ;;
  save_by_suffix img image_path.

Definition processing_banner : string := "üì∑ Processing: ".
Definition cleaned_banner : string := "‚úì Cleaned metadata from: ".
Definition error_banner : string := "‚úó Error processing ".
Definition newline : string := String (ascii_of_N 10) "".

(** Lines 191-250: the [try] block. *)
Definition clean_image_metadata_body (image_path : string) : SE world bool :=
  if negb (is_image_file image_path) then ret false
  else
    seen <- gets (fun w => bool_decide (image_path ∈ w_processed w)) ;;
    if (seen : bool) then ret false
    else
      on_stdout (print (newline +:+ processing_banner +:+ path_name image_path)) ;;;
      on_stdout (print (str_repeat "-" 50)) ;;;
      metadata_before <- get_metadata image_path ;;
      on_stdout (display_metadata metadata_before "Metadata BEFORE cleaning") ;;;
      original_mtime <- os_path_getmtime image_path ;;
      reencode image_path ;;;
      os_utime image_path (original_mtime, original_mtime) ;;;
      metadata_after <- get_metadata image_path ;;
      on_stdout (display_metadata metadata_after "Metadata AFTER cleaning") ;;;
      modify (set_processed (fun s => {[ image_path ]} ∪ s)) ;;;
      on_stdout (print (cleaned_banner +:+ path_name image_path)) ;;;
      on_stdout (print (str_repeat "-" 50)) ;;;
      ret true.

(** Lines 252-254 *)
Definition on_clean_error (image_path : string) (e : exn) : SE world bool :=
  print_err (error_banner +:+ image_path +:+ ": " +:+ exn_msg e) ;;;
  ret false.

Definition clean_image_metadata (image_path : string) : SE world bool :=
  try_except (clean_image_metadata_body image_path) any_Exception
             (on_clean_error image_path).

End Stripper.

(** ** The event handlers: [on_created] and [on_moved]

    A watchdog event, as the handlers read it.  [time.sleep] lets real
    time pass and changes nothing in the world. *)

Record event := Event {
  is_directory : bool;
  src_path : string;
  dest_path : string
}.

Section Handlers.
Context {P : Pillow}.

Definition time_sleep : SE world unit := ret tt.

(** Lines 256-261; the result of [clean_image_metadata] is dropped. *)
Definition on_created (ev : event) : SE world unit :=
  if negb (is_directory ev) then
    time_sleep ;;;
    clean_image_metadata (src_path ev) ;;;
    ret tt
  else ret tt.

(** Lines 263-268 *)
Definition on_moved (ev : event) : SE world unit :=
  if negb (is_directory ev) then
    time_sleep ;;;
    clean_image_metadata (dest_path ev) ;;;
    ret tt
  else ret tt.

(** The notifications the handler class answers; the observer delivers
    them one after the other, each handled to its end. *)
Inductive notification :=
| Created (ev : event)
| Moved (ev : event).

Definition deliver (n : notification) : SE world unit :=
  match n with
  | Created ev => on_created ev
  | Moved ev => on_moved ev
  end.

End Handlers.

(** ** A small Pillow for examples

    A file holds the result of decoding it; an image is the record of what
    the source reads of it.  The encoder writes the pixels of the image in
    the asked format, with the tag table the container cannot do without:
    for TIFF the two size tags, of the structural tags Pillow writes there,
    and none for the other formats.  The tag tables are an excerpt of
    [PIL.ExifTags]. *)

Module Small.

Record small_image := SmallImage {
  s_format : pyval;
  s_mode : string;
  s_size : Z * Z;
  s_exif : outcome (list (Z * outcome pyval));
  s_legacy : outcome (option pydict)
}.

Definition small_TAGS (tag_id : Z) : option string :=
  if (tag_id =? 256)%Z then Some "ImageWidth"
  else if (tag_id =? 257)%Z then Some "ImageLength"
  else if (tag_id =? 271)%Z then Some "Make"
  else if (tag_id =? 272)%Z then Some "Model"
  else if (tag_id =? 282)%Z then Some "XResolution"
  else if (tag_id =? 305)%Z then Some "Software"
  else if (tag_id =? 306)%Z then Some "DateTime"
  else if (tag_id =? 315)%Z then Some "Artist"
  else if (tag_id =? 33432)%Z then Some "Copyright"
  else if (tag_id =? 34853)%Z then Some "GPSInfo"
  else if (tag_id =? 37500)%Z then Some "MakerNote"
  else if (tag_id =? 37510)%Z then Some "UserComment"
  else if (tag_id =? 42033)%Z then Some "BodySerialNumber"
  else None.

Definition small_GPSTAGS (tag_id : Z) : option string :=
  if (tag_id =? 1)%Z then Some "GPSLatitudeRef"
  else if (tag_id =? 2)%Z then Some "GPSLatitude"
  else if (tag_id =? 3)%Z then Some "GPSLongitudeRef"
  else if (tag_id =? 4)%Z then Some "GPSLongitude"
  else None.

Definition no_legacy_reader : exn :=
  Exn AttributeError "'Image' object has no attribute '_getexif'".

Definition small_new (mode : string) (size : Z * Z) (_ : Z * Z * Z) : small_image :=
  SmallImage VNone mode size (Ret []) (Raise no_legacy_reader).

Definition small_convert (img : small_image) (mode : string) : outcome small_image :=
  Ret (SmallImage VNone mode (s_size img) (Ret []) (Raise no_legacy_reader)).

(** The tag table the encoder writes of its own. *)
Definition structural_tags (format : string) (size : Z * Z) : list (Z * outcome pyval) :=
  if String.eqb format "TIFF"
  then [(256, Ret (VInt (fst size))); (257, Ret (VInt (snd size)))]%Z
  else [].

Definition small_save (img : small_image) (format : string) (_ : save_options)
    : outcome small_image * outcome unit :=
  (Ret (SmallImage (VStr format) (s_mode img) (s_size img)
          (Ret (structural_tags format (s_size img)))
          (if String.eqb format "TIFF" then Raise no_legacy_reader else Ret None)),
   Ret tt).

#[export] Instance small_pillow : Pillow := {|
  TAGS := small_TAGS;
  GPSTAGS := small_GPSTAGS;
  filedata := outcome small_image;
  image := small_image;
  Image_open := fun data => data;
  img_format := s_format;
  img_mode := s_mode;
  img_size := s_size;
  getexif := s_exif;
  _getexif := s_legacy;
  Image_new := small_new;
  convert := small_convert;
  split_last := fun img => small_convert img "L";
  paste := fun background _ _ => Ret background;
  load := fun _ => Ret tt;
  save := small_save
|}.

(** A JPEG with the given primary tag table and legacy reader result. *)
Definition jpeg (exif : list (Z * outcome pyval)) (legacy : outcome (option pydict))
    : small_image :=
  SmallImage (VStr "JPEG") "RGB" (640, 480)%Z (Ret exif) legacy.

(** A world with one file. *)
Definition one_file (path : string) (img : small_image) (mtime atime now : Z) : world :=
  World {[ path := File (Ret img) mtime atime ]} ∅ [] [] now.

(** A JPEG as a camera writes it: maker, model, a GPS pointer and the
    body's serial number. *)
Definition tagged_jpeg : small_image :=
  jpeg [(271, Ret (VStr "AcmeCorp")); (272, Ret (VStr "X100"));
        (34853, Ret (VInt 1234)); (42033, Ret (VStr "SN123"))]%Z (Ret None).

Definition photo_world : world :=
  one_file "in/photo.jpg" tagged_jpeg 1000 900 2000.

(** A PNG with an alpha channel and no tag table. *)
Definition alpha_png : small_image :=
  SmallImage (VStr "PNG") "RGBA" (4, 4)%Z (Ret []) (Ret None).

Definition alpha_png_world : world :=
  one_file "in/a.png" alpha_png 1000 900 2000.

(** A JPEG with a private tag, one [TAGS] has no name for. *)
Definition private_tag_jpeg : small_image :=
  jpeg [(271, Ret (VStr "AcmeCorp")); (65000, Ret (VInt 7))]%Z (Ret None).

(** A JPEG whose second tag does not decode. *)
Definition half_decoded_jpeg : small_image :=
  jpeg [(271%Z, Ret (VStr "AcmeCorp"));
        (272%Z, Raise (Exn OtherException "unpack requires a buffer of 8 bytes"))]
       (Ret None).

Definition half_decoded_world : world :=
  one_file "in/a.jpg" half_decoded_jpeg 1000 900 2000.





End Small.

(** ** The vocabulary of the properties *)

(** [name] contains [term], letter case aside. *)
Definition contains_ci (name term : string) : Prop :=
  exists pre post, lower name = pre +:+ lower term +:+ post.

Definition is_int_key (k : pykey) : bool :=
  match k with KInt _ => true | KStr _ => false end.

Definition keys_of_kind (t : bool) (l : pydict) : Prop :=
  forall kv, In kv l -> is_int_key (fst kv) = t.

(** The output [out'] is [out] with lines added. *)
Definition extends (out out' : list string) : Prop :=
  exists rest, out' = (out ++ rest)%list.

(** What lines 122-129 make of a value. *)
Definition coerced (value : pyval) : pyval :=
  match value with
  | VBytes b => VStr (utf8_decode_ignore b)
  | VTuple l | VList l => VStr (join ", " (map py_str l))
  | _ => value
  end.


(** The snapshot has the three descriptive fields. *)
Definition has_image_info (d : pydict) : Prop :=
  forall f, In f descriptive_fields -> dict_mem d (KStr f) = true.

Section Vocabulary.
Context {P : Pillow}.

(** One turn of the tag loop: the item is decoded, then processed. *)
Definition tag_step (flag : bool) (item : Z * outcome pyval) : SE pydict unit :=
  bind (lift_outcome (snd item)) (fun value => process_tag flag (fst item) value).

(** The item's tag id is one [TAGS] names [GPSInfo]. *)
Definition names_gps (item : Z * outcome pyval) : Prop :=
  TAGS (fst item) = Some "GPSInfo".

(** Two worlds with the same files and the same processed set. *)
Definition same_files (w w1 : world) : Prop :=
  w_fs w1 = w_fs w /\ w_processed w1 = w_processed w /\ w_clock w1 = w_clock w.


End Vocabulary.

(** ** The vocabulary of the further properties *)

(** [m] keeps [Inv]: from a state with [Inv] it ends, returning or
    raising, in a state with [Inv]. *)
Definition keeps {St A} (Inv : St -> Prop) (m : SE St A) : Prop :=
  forall s, Inv s -> Inv (fst (m s)).

(** The text of a value as a report line shows it: at most 100
    characters of [str(value)], then an ellipsis when it was longer. *)
Definition shown_value (value : pyval) : string :=
  if (100 <? text_len (py_str value))%nat
  then text_take 100 (py_str value) +:+ "..." else py_str value.

(** The line of the report for a tag name and its value. *)
Definition report_line (key : string) (value : pyval) : string :=
  if is_serial key then
    "    " +:+ (if is_sensitive key then lock_marker else "   ") +:+ key +:+ ": " +:+
    shown_value value +:+ warn_serial
  else if is_sensitive key then
    "    " +:+ lock_marker +:+ key +:+ ": " +:+ shown_value value +:+ warn_sensitive
  else "    " +:+ key +:+ ": " +:+ shown_value value.

Definition serial_terms : list string :=
  [ "SerialNumber"; "BodySerialNumber"; "LensSerialNumber";
    "CameraSerialNumber"; "InternalSerialNumber"; "Serial Number" ].

(** The key of [x] is not after the key of [y]: [y < x] is false. *)
Definition key_not_after (x y : pykey * pyval) : Prop :=
  key_lt (fst y) (fst x) = Ret false.

(** Well-formed UTF-8, as the Unicode standard tabulates it (Table 3-7):
    the byte sequences of the nine rows, one after the other. *)
Inductive well_formed : list Byte.byte -> Prop :=
| wf_end : well_formed []
| wf_ascii c r :
    byte_in 0 127 c = true -> well_formed r -> well_formed (c :: r)
| wf_two c c1 r :
    byte_in 194 223 c = true -> byte_in 128 191 c1 = true ->
    well_formed r -> well_formed (c :: c1 :: r)
| wf_e0 c c1 c2 r :
    byte_in 224 224 c = true -> byte_in 160 191 c1 = true ->
    byte_in 128 191 c2 = true -> well_formed r -> well_formed (c :: c1 :: c2 :: r)
| wf_e1_ec c c1 c2 r :
    byte_in 225 236 c = true -> byte_in 128 191 c1 = true ->
    byte_in 128 191 c2 = true -> well_formed r -> well_formed (c :: c1 :: c2 :: r)
| wf_ed c c1 c2 r :
    byte_in 237 237 c = true -> byte_in 128 159 c1 = true ->
    byte_in 128 191 c2 = true -> well_formed r -> well_formed (c :: c1 :: c2 :: r)
| wf_ee_ef c c1 c2 r :
    byte_in 238 239 c = true -> byte_in 128 191 c1 = true ->
    byte_in 128 191 c2 = true -> well_formed r -> well_formed (c :: c1 :: c2 :: r)
| wf_f0 c c1 c2 c3 r :
    byte_in 240 240 c = true -> byte_in 144 191 c1 = true ->
    byte_in 128 191 c2 = true -> byte_in 128 191 c3 = true ->
    well_formed r -> well_formed (c :: c1 :: c2 :: c3 :: r)
| wf_f1_f3 c c1 c2 c3 r :
    byte_in 241 243 c = true -> byte_in 128 191 c1 = true ->
    byte_in 128 191 c2 = true -> byte_in 128 191 c3 = true ->
    well_formed r -> well_formed (c :: c1 :: c2 :: c3 :: r)
| wf_f4 c c1 c2 c3 r :
    byte_in 244 244 c = true -> byte_in 128 143 c1 = true ->
    byte_in 128 191 c2 = true -> byte_in 128 191 c3 = true ->
    well_formed r -> well_formed (c :: c1 :: c2 :: c3 :: r).

(** The container and the encoder options lines 227-236 choose for a
    lower-cased suffix. *)
Definition container_for (suffix format : string) (options : save_options) : Prop :=
  (In suffix [".jpg"; ".jpeg"] /\ format = "JPEG" /\
   options = {| quality := Some 95%Z; optimize := true |}) \/
  (suffix = ".png" /\ format = "PNG" /\
   options = {| quality := None; optimize := true |}) \/
  (In suffix [".tiff"; ".tif"] /\ format = "TIFF" /\
   options = {| quality := None; optimize := false |}) \/
  (suffix = ".webp" /\ format = "WEBP" /\
   options = {| quality := Some 95%Z; optimize := false |}) \/
  (suffix = ".bmp" /\ format = "BMP" /\
   options = {| quality := None; optimize := false |}).

(** The path a notification makes the handler work on, none for a
    directory: the source of a creation, the destination of a move. *)
Definition path_worked_on (n : notification) : option string :=
  match n with
  | Created ev => if is_directory ev then None else Some (src_path ev)
  | Moved ev => if is_directory ev then None else Some (dest_path ev)
  end.

Section MoreVocabulary.
Context {P : Pillow}.

(** [w] is [w0] after work on [path]: the other files are as they were,
    the processed set has grown by [path] at most, both streams have
    grown by lines at most. *)
Definition worked_on (path : string) (w0 w : world) : Prop :=
  (forall p, p <> path -> w_fs w !! p = w_fs w0 !! p) /\
  w_processed w0 ⊆ w_processed w /\
  w_processed w ⊆ {[ path ]} ∪ w_processed w0 /\
  extends (w_stdout w0) (w_stdout w) /\
  extends (w_stderr w0) (w_stderr w) /\
  w_clock w = w_clock w0.

(** [m] leaves the processed set alone, however it ends. *)
Definition marks_nothing {A} (m : SE world A) : Prop :=
  forall X, keeps (fun w => w_processed w = X) m.

(** The state in which the report of the file's metadata starts: the two
    opening lines are out. *)
Definition opening_lines (path : string) : list string :=
  [ newline +:+ processing_banner +:+ path_name path; str_repeat "-" 50 ].

(** The world after a call that stopped with [e]: [out] is the standard
    output it leaves, the error stream has the line that names the path
    and the error; files and processed set are as they were. *)
Definition stopped (w : world) (path : string) (out : list string) (e : exn) : world :=
  set_stderr (w_stderr w ++ [error_banner +:+ path +:+ ": " +:+ exn_msg e])%list
             (set_stdout out w).

(** Pillow gives images of the mode and size it is asked for: a new
    image has them, a converted image has the asked mode and the size of
    its source, and pasting changes neither of the image pasted on. *)
Definition modes_honoured : Prop :=
  (forall mode size color,
     img_mode (Image_new mode size color) = mode /\
     img_size (Image_new mode size color) = size) /\
  (forall img mode img',
     convert img mode = Ret img' -> img_mode img' = mode /\ img_size img' = img_size img) /\
  (forall background img mask out,
     paste background img mask = Ret out ->
     img_mode out = img_mode background /\ img_size out = img_size background).

End MoreVocabulary.

(** The small Pillow with a disk that is full: the encoder leaves a
    truncated file and raises. *)
Definition truncated_file : outcome Small.small_image :=
  Raise (Exn OtherException "image file is truncated").

Definition disk_full : exn :=
  Exn OtherException "[Errno 28] No space left on device".

Definition full_disk_pillow : Pillow := {|
  TAGS := Small.small_TAGS;
  GPSTAGS := Small.small_GPSTAGS;
  filedata := outcome Small.small_image;
  image := Small.small_image;
  Image_open := fun data => data;
  img_format := Small.s_format;
  img_mode := Small.s_mode;
  img_size := Small.s_size;
  getexif := Small.s_exif;
  _getexif := Small.s_legacy;
  Image_new := Small.small_new;
  convert := Small.small_convert;
  split_last := fun img => Small.small_convert img "L";
  paste := fun background _ _ => Ret background;
  load := fun _ => Ret tt;
  save := fun _ _ _ => (truncated_file, Raise disk_full)
|}.

Definition photo_on_full_disk : world (P := full_disk_pillow) :=
  World (P := full_disk_pillow)
        {[ "in/photo.jpg" := File (P := full_disk_pillow) (Ret Small.tagged_jpeg) 1000 900 ]}
        ∅ [] [] 2000.

(** The small Pillow on files whose pixel data is cut short: the tag table
    reads, the pixels do not decode. *)
Definition bad_pixels : exn :=
  Exn OtherException "image file is truncated (12 bytes not processed)".

Definition undecodable_pillow : Pillow := {|
  TAGS := Small.small_TAGS;
  GPSTAGS := Small.small_GPSTAGS;
  filedata := outcome Small.small_image;
  image := Small.small_image;
  Image_open := fun data => data;
  img_format := Small.s_format;
  img_mode := Small.s_mode;
  img_size := Small.s_size;
  getexif := Small.s_exif;
  _getexif := Small.s_legacy;
  Image_new := Small.small_new;
  convert := Small.small_convert;
  split_last := fun img => Small.small_convert img "L";
  paste := fun background _ _ => Ret background;
  load := fun _ => Raise bad_pixels;
  save := Small.small_save
|}.

Definition photo_with_bad_pixels : world (P := undecodable_pillow) :=
  World (P := undecodable_pillow)
        {[ "in/photo.jpg" := File (P := undecodable_pillow) (Ret Small.tagged_jpeg) 1000 900 ]}
        ∅ [] [] 2000.

(** * Properties *)

(** ** Dictionaries *)

Lemma pykey_eqb_spec a b : reflect (a = b) (pykey_eqb a b).
Proof.
  destruct a as [m|s], b as [n|t]; simpl; try (constructor; congruence).
  - destruct (Z.eqb_spec m n); constructor; congruence.
  - destruct (String.eqb_spec s t); constructor; congruence.
Qed.

Lemma pykey_eqb_refl a : pykey_eqb a a = true.
Proof. by destruct (pykey_eqb_spec a a). Qed.

Lemma pykey_eqb_neq a b : a ≠ b -> pykey_eqb a b = false.
Proof. by destruct (pykey_eqb_spec a b). Qed.

Lemma dict_get_set_eq d k v : dict_get (dict_set d k v) k = Some v.
Proof.
  induction d as [|[k' v'] d IH]; simpl.
  - by rewrite pykey_eqb_refl.
  - destruct (pykey_eqb k' k) eqn:E; simpl; rewrite E; auto.
Qed.

Lemma dict_get_set_ne d k v k' :
  k ≠ k' -> dict_get (dict_set d k v) k' = dict_get d k'.
Proof.
  intros Hne. induction d as [|[k0 v0] d IH]; simpl.
  - by rewrite pykey_eqb_neq.
  - destruct (pykey_eqb_spec k0 k) as [->|Hk]; simpl.
    + by rewrite pykey_eqb_neq.
    + by rewrite IH.
Qed.

Lemma dict_set_nonempty d k v : dict_set d k v ≠ [].
Proof. destruct d as [|[k' v'] d]; simpl; [|destruct (pykey_eqb k' k)]; discriminate. Qed.

(** ** Text search *)

Lemma append_cons c s t : String c s +:+ t = String c (s +:+ t).
Proof. reflexivity. Qed.

Lemma prefix_iff p s : String.prefix p s = true <-> exists post, s = p +:+ post.
Proof.
  revert s. induction p as [|c p IH]; intros [|c' s]; simpl.
  - split; [intros _; by exists "" | done].
  - split; [intros _; by exists (String c' s) | done].
  - split; [discriminate | intros [post H]; discriminate].
  - setoid_rewrite append_cons.
    destruct (ascii_dec c c') as [->|Hc].
    + rewrite IH. split; intros [post H]; exists post; congruence.
    + split; [discriminate | intros [post H]; congruence].
Qed.

Lemma str_in_iff needle hay :
  str_in needle hay = true <-> exists pre post, hay = pre +:+ needle +:+ post.
Proof.
  induction hay as [|c hay IH]; cbn [str_in].
  - rewrite orb_false_r, prefix_iff. split.
    + intros [post H]. by exists "", post.
    + intros [[|c pre] [post H]]; [by exists post | discriminate].
  - rewrite orb_true_iff, prefix_iff, IH. split.
    + intros [[post H] | (pre & post & H)].
      * by exists "", post.
      * exists (String c pre), post. rewrite append_cons. by rewrite H.
    + intros ([|c' pre] & post & H).
      * left. by exists post.
      * right. exists pre, post. rewrite append_cons in H. congruence.
Qed.

(** ** The sensitivity checks *)

(** C4: a tag name is marked sensitive exactly when it contains, letter
    case aside, a term of the fixed sensitive set, and is marked a
    hardware identifier exactly when it contains [serial], letter case
    aside.  [CameraSerialNumber] is both; [Artist] is sensitive and no
    hardware identifier; neither check is computed from the other, as
    [Serial] is a hardware identifier and not sensitive.  The report
    carries the marks. *)
Theorem classifier_matches_terms :
  (forall name, is_sensitive name = true <->
                exists term, In term sensitive_fields /\ contains_ci name term) /\
  (forall name, is_serial name = true <-> contains_ci name "serial") /\
  (is_sensitive "CameraSerialNumber" = true /\ is_serial "CameraSerialNumber" = true) /\
  (is_sensitive "Artist" = true /\ is_serial "Artist" = false) /\
  (is_sensitive "Serial" = false /\ is_serial "Serial" = true) /\
  display_item (KStr "CameraSerialNumber") (VStr "SN123") [] =
    (["    " +:+ lock_marker +:+ "CameraSerialNumber: SN123" +:+ warn_serial], Ret tt) /\
  display_item (KStr "Artist") (VStr "Ann") [] =
    (["    " +:+ lock_marker +:+ "Artist: Ann" +:+ warn_sensitive], Ret tt).
Proof.
  split; [|split; [|repeat split; reflexivity]].
  - intros name. unfold is_sensitive. rewrite existsb_exists.
    split; intros (term & Hin & H); exists term; (split; [exact Hin|]);
      by apply str_in_iff.
  - intros name. unfold is_serial. by rewrite str_in_iff.
Qed.

(** ** Running the monad *)

Ltac se_unfold :=
  unfold bind, ret, raise, modify, gets, lift_outcome, try_except, store in *.

Lemma for_each_cons {St X} (body : X -> SE St unit) x l s :
  for_each (x :: l) body s =
  match body x s with
  | (s', Ret _) => for_each l body s'
  | (s', Raise e) => (s', Raise e)
  end.
Proof. reflexivity. Qed.

(** A property of the state that every step keeps, whether the step
    returns or raises, holds when the loop ends, however it ends. *)
Lemma for_each_keeps {St X} (Inv : St -> Prop) (body : X -> SE St unit) l :
  (forall x s, In x l -> Inv s -> Inv (fst (body x s))) ->
  forall s, Inv s -> Inv (fst (for_each l body s)).
Proof.
  induction l as [|x l IH]; intros Hstep s Hs; [exact Hs|].
  rewrite for_each_cons.
  pose proof (Hstep x s (or_introl eq_refl) Hs) as Hx.
  destruct (body x s) as [s' [[]|e]]; simpl in Hx; [|exact Hx].
  apply IH; [|exact Hx]. intros y t Hy. apply Hstep. by right.
Qed.

(** ** Sorting items *)

Lemma key_lt_same a b :
  is_int_key a = is_int_key b -> exists r, key_lt a b = Ret r.
Proof. destruct a, b; simpl; intros H; try discriminate; eauto. Qed.

Lemma key_lt_mixed a b :
  is_int_key a <> is_int_key b -> exists msg, key_lt a b = Raise (Exn TypeError msg).
Proof. destruct a, b; simpl; intros H; try congruence; eauto. Qed.

Lemma insert_item_same x acc :
  keys_of_kind (is_int_key (fst x)) acc ->
  exists r, insert_item x acc = Ret r /\ r <> [] /\
            keys_of_kind (is_int_key (fst x)) r.
Proof.
  induction acc as [|y acc IH]; intros Hk; simpl.
  - exists [x]. split; [done|]. split; [done|].
    intros kv [<-|[]]. done.
  - destruct (key_lt_same (fst x) (fst y)) as [b Hb].
    { symmetry. apply Hk. by left. }
    rewrite Hb. destruct b.
    + exists (x :: y :: acc). split; [done|]. split; [done|].
      intros kv [<-|Hin]; [done | by apply Hk].
    + destruct IH as (r & -> & _ & Hr).
      { intros kv Hin. apply Hk. by right. }
      exists (y :: r). split; [done|]. split; [done|].
      intros kv [<-|Hin]; [apply Hk; by left | by apply Hr].
Qed.

Lemma insert_item_mixed x y acc :
  is_int_key (fst x) <> is_int_key (fst y) ->
  exists msg, insert_item x (y :: acc) = Raise (Exn TypeError msg).
Proof.
  intros H. simpl. destruct (key_lt_mixed _ _ H) as [msg ->]. eauto.
Qed.

Lemma sorted_onto_mixed l : forall acc t,
  acc <> [] -> keys_of_kind t acc ->
  (exists kv, In kv l /\ is_int_key (fst kv) <> t) ->
  exists msg, sorted_onto acc l = Raise (Exn TypeError msg).
Proof.
  induction l as [|x l IH]; intros acc t Hne Hk (kv & Hin & Hkv); [destruct Hin|].
  simpl. destruct (bool_decide (is_int_key (fst x) = t)) eqn:E.
  - apply bool_decide_eq_true in E. subst t.
    destruct (insert_item_same x acc Hk) as (r & -> & Hr & Hkr).
    apply (IH r _ Hr Hkr). destruct Hin as [<-|Hin]; [done|]. eauto.
  - apply bool_decide_eq_false in E.
    destruct acc as [|y acc]; [done|].
    destruct (insert_item_mixed x y acc) as [msg ->]; [|eauto].
    rewrite (Hk y (or_introl eq_refl)). done.
Qed.

(** [sorted] raises [TypeError] on items with an [int] key and a [str]
    key among them. *)
Lemma sorted_mixed (d : pydict) m s :
  In (KInt m) (dict_keys d) -> In (KStr s) (dict_keys d) ->
  exists msg, sorted d = Raise (Exn TypeError msg).
Proof.
  unfold dict_keys. rewrite !in_map_iff.
  intros ([k1 v1] & Hk1 & Hin1) ([k2 v2] & Hk2 & Hin2). simpl in *. subst.
  destruct d as [|x d]; [destruct Hin1|].
  unfold sorted. simpl.
  apply (sorted_onto_mixed d [x] (is_int_key (fst x))); [done| |].
  - intros kv [<-|[]]. done.
  - destruct (is_int_key (fst x)) eqn:E.
    + exists (KStr s, v2). split; [|done].
      destruct Hin2 as [->|]; [discriminate | done].
    + exists (KInt m, v1). split; [|done].
      destruct Hin1 as [->|]; [discriminate | done].
Qed.

(** ** The reporter *)

Lemma dict_mem_keys d k : dict_mem d k = true <-> In k (dict_keys d).
Proof.
  unfold dict_mem. induction d as [|[k' v] d IH]; simpl; [split; [discriminate|tauto]|].
  destruct (pykey_eqb_spec k' k) as [->|Hne]; [tauto|].
  rewrite IH. split; [tauto | intros [?|?]; [done | done]].
Qed.

(** A snapshot with a numeric key and a text key makes the reporter raise
    [TypeError] after the header line. *)
Lemma display_mixed_keys (d : pydict) m s label out :
  In (KInt m) (dict_keys d) -> In (KStr s) (dict_keys d) ->
  exists msg, display_metadata d label out =
              ((out ++ ["  " +:+ label +:+ ":"])%list, Raise (Exn TypeError msg)).
Proof.
  intros Hm Hs. destruct (sorted_mixed d m s Hm Hs) as [msg Hsort].
  exists msg. unfold display_metadata.
  destruct d as [|x d]; [destruct Hm|]. simpl dict_is_empty. cbv iota.
  unfold bind, print, modify, lift_outcome. by rewrite Hsort.
Qed.

Lemma print_appends line out : print line out = ((out ++ [line])%list, Ret tt).
Proof. reflexivity. Qed.

Lemma extends_refl out : extends out out.
Proof. exists []. by rewrite app_nil_r. Qed.

Lemma extends_trans a b c : extends a b -> extends b c -> extends a c.
Proof. intros [r1 ->] [r2 ->]. exists (r1 ++ r2)%list. by rewrite app_assoc. Qed.

Lemma extends_print line out : extends out (fst (print line out)).
Proof. by exists [line]. Qed.

Lemma for_each_extends {X} (body : X -> SE (list string) unit) l :
  (forall x out, extends out (fst (body x out))) ->
  forall out, extends out (fst (for_each l body out)).
Proof.
  intros Hb. induction l as [|x l IH]; intros out; [apply extends_refl|].
  rewrite for_each_cons. specialize (Hb x out).
  destruct (body x out) as [out1 [[]|e]]; simpl in Hb; [|exact Hb].
  eapply extends_trans; [exact Hb | apply IH].
Qed.

Lemma display_item_extends key value out :
  extends out (fst (display_item key value out)).
Proof.
  unfold display_item.
  destruct (is_descriptive key); [apply extends_refl|].
  destruct key as [n|s]; [apply extends_refl|].
  unfold key_lower, bind, ret.
  assert (Hrest : forall a b c : string,
     extends out (fst ((if is_serial (key_str (KStr s)) then print a
                        else if is_sensitive (key_str (KStr s)) then print b
                        else print c) out))).
  { intros a b c. destruct (is_serial _); [apply extends_print|].
    destruct (is_sensitive _); apply extends_print. }
  destruct (pykey_eqb (KStr s) (KStr "GPSInfo")); [|apply Hrest].
  destruct value; try apply Hrest.
  rewrite print_appends. unfold lift_outcome.
  destruct (sorted d) as [items|e]; simpl; [|by eexists].
  eapply extends_trans; [by eexists|].
  apply for_each_extends. intros kv o. apply extends_print.
Qed.

Lemma display_metadata_header (d : pydict) label out :
  dict_is_empty d = false ->
  extends (out ++ ["  " +:+ label +:+ ":"])%list (fst (display_metadata d label out)).
Proof.
  intros Hd. unfold display_metadata. rewrite Hd.
  unfold bind. rewrite print_appends. unfold lift_outcome.
  destruct (sorted d) as [items|e]; simpl; [|apply extends_refl].
  apply for_each_extends. intros kv o. apply display_item_extends.
Qed.

Section ExtractorFacts.
Context {P : Pillow}.

Lemma get_metadata_of_cases (opened : outcome image) :
  get_metadata_of opened =
  match get_metadata_body opened [] with
  | (metadata, Ret _) => Ret metadata
  | (metadata, Raise e) => Ret (dict_set metadata (KStr "Error") (VStr (exn_msg e)))
  end.
Proof.
  unfold get_metadata_of, on_extract_error. se_unfold.
  by destruct (get_metadata_body opened []) as [s [[]|e]].
Qed.

Lemma store_image_info_run (img : image) s :
  store_image_info img s =
  (dict_set (dict_set (dict_set s (KStr "Image Format") (img_format img))
                      (KStr "Image Mode") (VStr (img_mode img)))
            (KStr "Image Size") (size_value (img_size img)), Ret tt).
Proof. reflexivity. Qed.

Lemma body_returns_info opened s r :
  get_metadata_body opened [] = (s, Ret r) ->
  forall f, In f descriptive_fields -> dict_mem s (KStr f) = true.
Proof.
  unfold get_metadata_body, bind, lift_outcome.
  destruct opened as [img|e]; [|discriminate].
  destruct (getexif img) as [exifdata|e]; [|discriminate].
  destruct (gps_prepass img exifdata []) as [s1 [flag|e]]; [|discriminate].
  destruct (process_tags exifdata flag s1) as [s2 [[]|e]]; [|discriminate].
  rewrite store_image_info_run. intros [= <- _] f Hf.
  unfold dict_mem.
  destruct Hf as [<-|[<-|[<-|[]]]].
  - rewrite !dict_get_set_ne by discriminate. by rewrite dict_get_set_eq.
  - rewrite !dict_get_set_ne by discriminate. by rewrite dict_get_set_eq.
  - by rewrite dict_get_set_eq.
Qed.

Lemma coerce_value_run value s : coerce_value value s = (s, Ret (coerced value)).
Proof. by destruct value. Qed.

(** One pass of the tag loop returns, and writes at most the entry of the
    tag's resolved name. *)
Lemma process_tag_run flag tag_id value s :
  exists s', process_tag flag tag_id value s = (s', Ret tt) /\
    forall k, k <> resolve TAGS (KInt tag_id) -> dict_get s' k = dict_get s k.
Proof.
  unfold process_tag.
  set (tag := resolve TAGS (KInt tag_id)).
  assert (Hstore : forall v, exists s', store tag v s = (s', Ret tt) /\
            forall k, k <> tag -> dict_get s' k = dict_get s k).
  { intros v. eexists. split; [reflexivity|]. intros k Hk.
    by apply dict_get_set_ne. }
  assert (Hgen : exists s',
     (if pykey_eqb tag (KStr "MakerNote") then
        match value with
        | VBytes b =>
            store tag (VStr ("<Proprietary data: " +:+ len_bytes b +:+
                             " bytes - May contain device serial numbers>"))
        | _ => store tag (VStr "<Proprietary manufacturer data - May contain device serial numbers>")
        end
      else bind (coerce_value value) (fun value' => store tag value')) s = (s', Ret tt) /\
     forall k, k <> tag -> dict_get s' k = dict_get s k).
  { destruct (pykey_eqb tag (KStr "MakerNote")).
    - destruct value; apply Hstore.
    - unfold bind. rewrite coerce_value_run. apply Hstore. }
  destruct (pykey_eqb tag (KStr "GPSInfo")); simpl.
  - destruct flag; simpl; [by exists s|].
    destruct value; try exact Hgen.
    + apply Hstore.
    + unfold try_except.
      destruct (Hstore (VDict (resolve_gps d))) as (s' & -> & Hs'). eauto.
  - exact Hgen.
Qed.


Lemma tag_step_keeps flag item s k :
  k <> resolve TAGS (KInt (fst item)) ->
  dict_get (fst (tag_step flag item s)) k = dict_get s k.
Proof.
  intros Hk. unfold tag_step, bind, lift_outcome.
  destruct (snd item) as [v|e]; [|done].
  destruct (process_tag_run flag (fst item) v s) as (s' & -> & Hs'). by apply Hs'.
Qed.



Lemma find_gps_tag_id_app pre gps_tag_id item post :
  (forall it, In it pre -> ~ names_gps it) ->
  TAGS gps_tag_id = Some "GPSInfo" ->
  find_gps_tag_id (pre ++ (gps_tag_id, item) :: post)%list = Some gps_tag_id.
Proof.
  intros Hpre Hg. unfold find_gps_tag_id.
  induction pre as [|it pre IH]; simpl.
  - by rewrite Hg.
  - destruct (TAGS (fst it)) as [name|] eqn:E.
    + destruct (String.eqb_spec name "GPSInfo") as [->|Hne].
      * destruct (Hpre it (or_introl eq_refl)). exact E.
      * apply IH. intros it' Hit. apply Hpre. by right.
    + apply IH. intros it' Hit. apply Hpre. by right.
Qed.

Lemma exif_get_app pre gps_tag_id value post :
  (forall it, In it pre -> ~ names_gps it) ->
  TAGS gps_tag_id = Some "GPSInfo" ->
  exif_get (pre ++ (gps_tag_id, Ret value) :: post)%list gps_tag_id = Ret (Some value).
Proof.
  intros Hpre Hg. induction pre as [|[k it] pre IH]; simpl.
  - by rewrite Z.eqb_refl.
  - destruct (Z.eqb_spec k gps_tag_id) as [->|Hne].
    + destruct (Hpre (gps_tag_id, it) (or_introl eq_refl)). exact Hg.
    + apply IH. intros it' Hit. apply Hpre. by right.
Qed.


(** C7, as the code has it: in the general branch a byte-sequence value
    is stored as the text its UTF-8 decoding gives with the undecodable
    bytes dropped; the coercion returns for every byte sequence, so the
    handler that would store the byte-count placeholder never runs. *)
Theorem bytes_decoded_dropping_errors (flag : bool) (tag_id : Z)
    (b : list Byte.byte) (metadata : pydict) :
  resolve TAGS (KInt tag_id) <> KStr "GPSInfo" ->
  resolve TAGS (KInt tag_id) <> KStr "MakerNote" ->
  coerce_value (VBytes b) metadata = (metadata, Ret (VStr (utf8_decode_ignore b))) /\
  process_tag flag tag_id (VBytes b) metadata =
    (dict_set metadata (resolve TAGS (KInt tag_id)) (VStr (utf8_decode_ignore b)), Ret tt).
Proof.
  intros Hgps Hmaker. split; [reflexivity|].
  unfold process_tag.
  rewrite (pykey_eqb_neq _ _ Hgps), (pykey_eqb_neq _ _ Hmaker).
  reflexivity.
Qed.

Lemma dict_set_keys d k v k' :
  In k' (dict_keys (dict_set d k v)) <-> k' = k \/ In k' (dict_keys d).
Proof.
  unfold dict_keys. induction d as [|[k0 v0] d IH]; simpl; [intuition|].
  destruct (pykey_eqb_spec k0 k) as [->|Hne]; simpl; [intuition|].
  rewrite IH. intuition.
Qed.

(** One pass of the tag loop skips the tag, when it is the [GPSInfo]
    that was resolved before the loop, or stores one value under the
    tag's resolved name. *)
Lemma process_tag_shape flag tag_id value s :
  (pykey_eqb (resolve TAGS (KInt tag_id)) (KStr "GPSInfo") && flag = true /\
   process_tag flag tag_id value s = (s, Ret tt)) \/
  (exists v, process_tag flag tag_id value s =
             (dict_set s (resolve TAGS (KInt tag_id)) v, Ret tt)).
Proof.
  unfold process_tag.
  set (tag := resolve TAGS (KInt tag_id)).
  assert (Hgen : exists v,
     (if pykey_eqb tag (KStr "MakerNote") then
        match value with
        | VBytes b =>
            store tag (VStr ("<Proprietary data: " +:+ len_bytes b +:+
                             " bytes - May contain device serial numbers>"))
        | _ => store tag (VStr "<Proprietary manufacturer data - May contain device serial numbers>")
        end
      else bind (coerce_value value) (fun value' => store tag value')) s =
     (dict_set s tag v, Ret tt)).
  { destruct (pykey_eqb tag (KStr "MakerNote")).
    - destruct value; by eexists.
    - unfold bind. rewrite coerce_value_run. by eexists. }
  destruct (pykey_eqb tag (KStr "GPSInfo")); simpl.
  - destruct flag; simpl; [by left|]. right.
    destruct value; try exact Hgen; by eexists.
  - right. exact Hgen.
Qed.

(** One pass of the tag loop removes no key, and a tag id unknown to
    [TAGS] leaves the integer among the keys. *)
Lemma process_tag_keys flag tag_id value s :
  (forall k, In k (dict_keys s) ->
             In k (dict_keys (fst (process_tag flag tag_id value s)))) /\
  (TAGS tag_id = None ->
   In (KInt tag_id) (dict_keys (fst (process_tag flag tag_id value s)))).
Proof.
  destruct (process_tag_shape flag tag_id value s) as [[Hskip ->]|[v ->]]; simpl fst.
  - split; [done|]. intros Htag. unfold resolve in Hskip. by rewrite Htag in Hskip.
  - split.
    + intros k Hk. apply dict_set_keys. by right.
    + intros Htag. apply dict_set_keys. left. unfold resolve. by rewrite Htag.
Qed.

Lemma tag_step_keys flag item s k :
  In k (dict_keys s) -> In k (dict_keys (fst (tag_step flag item s))).
Proof.
  intros Hk. unfold tag_step, bind, lift_outcome.
  destruct (snd item) as [v|e]; [|done].
  by apply process_tag_keys.
Qed.

Lemma tag_steps_store_unknown flag tag_id value items : forall s s',
  for_each items (tag_step flag) s = (s', Ret tt) ->
  In (tag_id, Ret value) items -> TAGS tag_id = None ->
  In (KInt tag_id) (dict_keys s').
Proof.
  induction items as [|item items IH]; intros s s' Hrun Hin Htag; [destruct Hin|].
  rewrite for_each_cons in Hrun.
  destruct (tag_step flag item s) as [s1 [[]|e]] eqn:Hstep; [|discriminate].
  destruct Hin as [->|Hin]; [|by eapply IH].
  assert (H1 : In (KInt tag_id) (dict_keys s1)).
  { unfold tag_step, bind, lift_outcome in Hstep. simpl in Hstep.
    pose proof (proj2 (process_tag_keys flag tag_id value s) Htag) as Hk.
    by rewrite Hstep in Hk. }
  pose proof (for_each_keeps (fun t => In (KInt tag_id) (dict_keys t))
                (tag_step flag) items
                (fun x t _ Ht => tag_step_keys flag x t _ Ht) s1 H1) as Hk.
  by rewrite Hrun in Hk.
Qed.

(** C10: a tag id that [TAGS] does not know is stored under the integer
    itself.  Whenever the tag table holds such an id and the extraction
    runs through, the snapshot has that integer key beside the text keys
    of the descriptive fields, and the reporter raises [TypeError] when it
    sorts them: the header line is printed and no entry is rendered. *)
Theorem display_raises_on_unresolved_tag (img : image)
    (exifdata : list (Z * outcome pyval)) (tag_id : Z) (value : pyval)
    (metadata : pydict) (label : string) (out : list string) :
  TAGS tag_id = None ->
  getexif img = Ret exifdata ->
  In (tag_id, Ret value) exifdata ->
  get_metadata_body (Ret img) [] = (metadata, Ret tt) ->
  get_metadata_of (Ret img) = Ret metadata /\
  In (KInt tag_id) (dict_keys metadata) /\
  (forall f, In f descriptive_fields -> In (KStr f) (dict_keys metadata)) /\
  exists msg,
    display_metadata metadata label out =
      ((out ++ ["  " +:+ label +:+ ":"])%list, Raise (Exn TypeError msg)).
Proof.
  intros Htag Hexif Hin Hbody.
  assert (Hinfo : forall f, In f descriptive_fields -> In (KStr f) (dict_keys metadata)).
  { intros f Hf. apply dict_mem_keys. by eapply body_returns_info. }
  assert (Hkey : In (KInt tag_id) (dict_keys metadata)).
  { unfold get_metadata_body, bind, lift_outcome in Hbody. rewrite Hexif in Hbody.
    destruct (gps_prepass img exifdata []) as [s1 [flag|e]]; [|discriminate].
    destruct (process_tags exifdata flag s1) as [s2 [[]|e]] eqn:Htags; [|discriminate].
    rewrite store_image_info_run in Hbody. injection Hbody as <-.
    do 3 (apply dict_set_keys; right).
    unfold process_tags in Htags.
    destruct exifdata as [|item rest]; [destruct Hin|].
    change (for_each (item :: rest) (tag_step flag) s1 = (s2, Ret tt)) in Htags.
    exact (tag_steps_store_unknown flag tag_id value _ _ _ Htags Hin Htag). }
  split; [by rewrite get_metadata_of_cases, Hbody|].
  split; [exact Hkey|]. split; [exact Hinfo|].
  eapply display_mixed_keys; [exact Hkey | apply (Hinfo "Image Format"); by left].
Qed.
End ExtractorFacts.

(** C7, counterexample: the one malformed byte [0xff] under [Software] is
    stored as the empty text, not as the byte-count placeholder. *)
Lemma malformed_bytes_no_placeholder :
  get_metadata_of (P := Small.small_pillow)
    (Ret (Small.jpeg [(305%Z, Ret (VBytes [Byte.xff]))] (Ret None))) =
    Ret [(KStr "Software", VStr "");
         (KStr "Image Format", VStr "JPEG");
         (KStr "Image Mode", VStr "RGB");
         (KStr "Image Size", VTuple [VInt 640; VInt 480])] /\
  VStr "" <> VStr ("<bytes: " +:+ len_bytes [Byte.xff] +:+ " bytes>").
Proof. split; [reflexivity | discriminate]. Qed.

(** The bytes [A], [0xff], [B] under [Software] are stored as the text [AB]. *)
Lemma bytes_decoded_dropping_errors_witness :
  coerce_value (VBytes [Byte.x41; Byte.xff; Byte.x42]) [] =
    ([], Ret (VStr "AB")) /\
  process_tag (P := Small.small_pillow) false 305 (VBytes [Byte.x41; Byte.xff; Byte.x42]) [] =
    ([(KStr "Software", VStr "AB")], Ret tt).
Proof.
  apply (bytes_decoded_dropping_errors (P := Small.small_pillow) false 305
           [Byte.x41; Byte.xff; Byte.x42] []); vm_compute; discriminate.
Defined.

(** The private tag 65000 beside [Make]: the reporter raises on the snapshot. *)
Lemma display_raises_on_unresolved_tag_witness :
  get_metadata_of (P := Small.small_pillow) (Ret Small.private_tag_jpeg) =
    Ret [(KStr "Make", VStr "AcmeCorp"); (KInt 65000, VInt 7);
         (KStr "Image Format", VStr "JPEG"); (KStr "Image Mode", VStr "RGB");
         (KStr "Image Size", VTuple [VInt 640; VInt 480])] /\
  display_metadata
    [(KStr "Make", VStr "AcmeCorp"); (KInt 65000, VInt 7);
     (KStr "Image Format", VStr "JPEG"); (KStr "Image Mode", VStr "RGB");
     (KStr "Image Size", VTuple [VInt 640; VInt 480])]
    "Metadata BEFORE cleaning" [] =
    (["  Metadata BEFORE cleaning:"],
     Raise (Exn TypeError "'<' not supported between instances of 'int' and 'str'")).
Proof.
  destruct (display_raises_on_unresolved_tag (P := Small.small_pillow)
              Small.private_tag_jpeg
              [(271%Z, Ret (VStr "AcmeCorp")); (65000%Z, Ret (VInt 7))]
              65000 (VInt 7)
              [(KStr "Make", VStr "AcmeCorp"); (KInt 65000, VInt 7);
               (KStr "Image Format", VStr "JPEG"); (KStr "Image Mode", VStr "RGB");
               (KStr "Image Size", VTuple [VInt 640; VInt 480])]
              "Metadata BEFORE cleaning" [])
    as (Hrun & _ & _ & msg & Hshow).
  - reflexivity.
  - reflexivity.
  - right. by left.
  - reflexivity.
  - split; [exact Hrun | reflexivity].
Defined.



(** ** The extractor on a path *)

Section StripperFacts.
Context {P : Pillow}.

(** C9: for every path the extractor returns a snapshot that is not
    empty: it has the three descriptive fields or an [Error] entry.  So
    the reporter never takes its empty-snapshot branch on it: what it
    prints starts with the header line. *)
Theorem get_metadata_never_empty (w : world) (path : string) :
  exists metadata,
    get_metadata path w = (w, Ret metadata) /\
    dict_is_empty metadata = false /\
    (has_image_info metadata \/ dict_mem metadata (KStr "Error") = true) /\
    forall label out,
      extends (out ++ ["  " +:+ label +:+ ":"])%list
              (fst (display_metadata metadata label out)).
Proof.
  unfold get_metadata. rewrite get_metadata_of_cases.
  destruct (get_metadata_body (open_image w path) []) as [s [[]|e]] eqn:Hb.
  - pose proof (body_returns_info _ _ _ Hb) as Hinfo.
    assert (Hne : dict_is_empty s = false).
    { specialize (Hinfo "Image Format" (or_introl eq_refl)).
      destruct s; [discriminate | done]. }
    exists s. split; [done|]. split; [done|]. split; [by left|].
    intros label out. by apply display_metadata_header.
  - assert (Hne : dict_is_empty (dict_set s (KStr "Error") (VStr (exn_msg e))) = false).
    { pose proof (dict_set_nonempty s (KStr "Error") (VStr (exn_msg e))).
      by destruct (dict_set s _ _). }
    eexists. split; [done|]. split; [done|]. split.
    + right. unfold dict_mem. by rewrite dict_get_set_eq.
    + intros label out. by apply display_metadata_header.
Qed.

(** C2, as the code has it: the extractor returns for every path; when
    the [try] block raises, the snapshot is what the block had stored by
    then with an [Error] entry for the message added, and it is the
    [Error] entry alone when opening the file or reading its tag table
    raised. *)
Theorem get_metadata_adds_error (w : world) (path : string) :
  exists metadata,
    get_metadata path w = (w, Ret metadata) /\
    forall e,
      snd (get_metadata_body (open_image w path) []) = Raise e ->
      metadata = dict_set (fst (get_metadata_body (open_image w path) []))
                          (KStr "Error") (VStr (exn_msg e)) /\
      dict_get metadata (KStr "Error") = Some (VStr (exn_msg e)) /\
      ((open_image w path = Raise e \/
        exists img, open_image w path = Ret img /\ getexif img = Raise e) ->
       metadata = [(KStr "Error", VStr (exn_msg e))]).
Proof.
  unfold get_metadata. rewrite get_metadata_of_cases.
  destruct (get_metadata_body (open_image w path) []) as [s [[]|e]] eqn:Hb.
  - exists s. split; [done|]. intros e [=].
  - eexists. split; [done|]. intros e' [= <-]. split; [done|].
    split; [apply dict_get_set_eq|].
    unfold get_metadata_body, bind, lift_outcome in Hb.
    intros [Ho | (img & Ho & Hx)]; rewrite Ho in Hb.
    + by injection Hb as <-.
    + rewrite Hx in Hb. by injection Hb as <-.
Qed.

(** ** The stripper *)


Lemma bind_returns {St A B} (m : SE St A) (k : A -> SE St B) s s' b :
  bind m k s = (s', Ret b) ->
  exists a s1, m s = (s1, Ret a) /\ k a s1 = (s', Ret b).
Proof.
  unfold bind. destruct (m s) as [s1 [a|e]]; [eauto | discriminate].
Qed.

Lemma on_stdout_same_files {A} (m : SE (list string) A) w w1 r :
  on_stdout m w = (w1, r) -> same_files w w1.
Proof.
  unfold on_stdout. destruct (m (w_stdout w)) as [out r']. by intros [= <- _].
Qed.

Lemma supported_suffix path :
  is_image_file path = true ->
  In (lower (path_suffix path)) [".jpg"; ".jpeg"; ".png"; ".tiff"; ".tif"; ".bmp"; ".webp"].
Proof.
  unfold is_image_file, SUPPORTED_FORMATS. intros H.
  apply bool_decide_eq_true in H. set_unfold in H. simpl. intuition congruence.
Qed.

(** A supported suffix reaches one of the five [save] calls, the one of
    its container. *)
Lemma save_by_suffix_saves img path w :
  is_image_file path = true ->
  exists format options,
    container_for (lower (path_suffix path)) format options /\
    save_by_suffix img path w = img_save img path format options w.
Proof.
  intros H. apply supported_suffix in H. unfold save_by_suffix, container_for.
  destruct H as [<-|[<-|[<-|[<-|[<-|[<-|[<-|[]]]]]]]]; simpl; eexists _, _;
    (split; [|reflexivity]); simpl; tauto.
Qed.

Lemma normalize_mode_same img img' w w1 :
  normalize_mode img w = (w1, Ret img') -> w1 = w.
Proof.
  unfold normalize_mode, bind, lift_outcome, ret.
  repeat case_match; intros [=]; simplify_eq; done.
Qed.

Lemma reencode_returns path w w1 :
  is_image_file path = true ->
  reencode path w = (w1, Ret tt) ->
  exists f img format options data,
    w_fs w !! path = Some f /\
    container_for (lower (path_suffix path)) format options /\
    save img format options = (data, Ret tt) /\
    w1 = set_fs (insert path (File data (w_clock w) (f_atime f))) w.
Proof.
  intros Hsup H. unfold reencode in H.
  apply bind_returns in H as (img & w2 & Hopen & H).
  injection Hopen as <- Hopen.
  apply bind_returns in H as (img' & w3 & Hnorm & H).
  apply normalize_mode_same in Hnorm as ->.
  destruct (save_by_suffix_saves img' path w Hsup) as (format & options & Hcont & Hs).
  rewrite Hs in H. unfold img_save in H.
  apply bind_returns in H as ([] & w4 & Hload & H).
  injection Hload as <- Hload.
  unfold open_image in Hopen.
  destruct (w_fs w !! path) as [f|] eqn:Hf; [|discriminate].
  destruct (save img' format options) as [data r] eqn:Hsave.
  injection H as <- ->. eauto 10.
Qed.

Lemma os_utime_returns path times w w1 :
  os_utime path times w = (w1, Ret tt) ->
  exists f, w_fs w !! path = Some f /\
            w1 = set_fs (insert path (File (f_data f) (snd times) (fst times))) w.
Proof.
  unfold os_utime. destruct (w_fs w !! path) as [f|]; [|discriminate].
  intros [= <-]. eauto.
Qed.

Lemma os_path_getmtime_returns path w w1 t :
  os_path_getmtime path w = (w1, Ret t) ->
  w1 = w /\ exists f, w_fs w !! path = Some f /\ t = f_mtime f.
Proof.
  unfold os_path_getmtime. destruct (w_fs w !! path) as [f|]; [|discriminate].
  intros [= <- <-]. eauto.
Qed.

(** What a call that returns [True] has done: [w0] is the world when
    the first report is out, [w1] the world after re-encoding, [w2] the
    world after [os.utime]. *)
Lemma clean_returns_true path w w' :
  clean_image_metadata path w = (w', Ret true) ->
  is_image_file path = true /\ (path ∉ w_processed w) /\
  exists f img format options data w0 w1 w2,
    w_fs w !! path = Some f /\
    container_for (lower (path_suffix path)) format options /\
    save img format options = (data, Ret tt) /\
    same_files w w0 /\
    reencode path w0 = (w1, Ret tt) /\
    w_fs w1 = <[path := File data (w_clock w) (f_atime f)]> (w_fs w) /\
    os_utime path (f_mtime f, f_mtime f) w1 = (w2, Ret tt) /\
    w_fs w2 = <[path := File data (f_mtime f) (f_mtime f)]> (w_fs w) /\
    w_fs w' = w_fs w2 /\
    w_processed w' = {[ path ]} ∪ w_processed w.
Proof.
  unfold clean_image_metadata, try_except.
  destruct (clean_image_metadata_body path w) as [w0 [b|e]] eqn:Hbody;
    [|intros [=]].
  intros [= -> ->]. unfold clean_image_metadata_body in Hbody.
  destruct (is_image_file path) eqn:Hsup; [|discriminate]. simpl in Hbody.
  apply bind_returns in Hbody as (seen & w1 & Hseen & H).
  injection Hseen as <- <-.
  destruct (bool_decide (path ∈ w_processed w)) eqn:Hin; [discriminate|].
  apply bool_decide_eq_false in Hin.
  apply bind_returns in H as (? & w1 & H1 & H). apply on_stdout_same_files in H1.
  apply bind_returns in H as (? & w2 & H2 & H). apply on_stdout_same_files in H2.
  apply bind_returns in H as (before & w3 & H3 & H). injection H3 as <- _.
  apply bind_returns in H as (? & w4 & H4 & H). apply on_stdout_same_files in H4.
  apply bind_returns in H as (t & w5 & H5 & H).
  apply os_path_getmtime_returns in H5 as (-> & f & Hf & ->).
  apply bind_returns in H as ([] & w6 & H6 & H).
  pose proof H6 as Hre.
  apply (reencode_returns _ _ _ Hsup) in H6
    as (f' & img & format & options & data & Hf' & Hcont & Hsave & ->).
  apply bind_returns in H as ([] & w7 & H7 & H).
  pose proof H7 as Hut.
  apply os_utime_returns in H7 as (f7 & Hf7 & ->). simpl in Hf7.
  rewrite lookup_insert_eq in Hf7. injection Hf7 as <-.
  apply bind_returns in H as (after & w8 & H8 & H). injection H8 as <- _.
  apply bind_returns in H as (? & w9 & H9 & H). apply on_stdout_same_files in H9.
  apply bind_returns in H as ([] & w10 & H10 & H). injection H10 as <-.
  apply bind_returns in H as (? & w11 & H11 & H). apply on_stdout_same_files in H11.
  apply bind_returns in H as (? & w12 & H12 & H). apply on_stdout_same_files in H12.
  injection H as <-.
  destruct H1 as (F1 & P1 & C1), H2 as (F2 & P2 & C2), H4 as (F4 & P4 & C4),
    H9 as (F9 & P9 & C9), H11 as (F11 & P11 & C11), H12 as (F12 & P12 & C12).
  split; [done|]. split; [done|].
  rewrite F4, F2, F1 in Hf, Hf'. rewrite Hf in Hf'. injection Hf' as <-.
  eexists f, img, format, options, data, w4, _, _.
  split; [done|]. split; [done|]. split; [done|].
  split; [repeat split; congruence|].
  split; [exact Hre|]. split.
  { simpl. by rewrite F4, F2, F1, C4, C2, C1. }
  split; [exact Hut|]. split.
  { simpl. rewrite insert_insert_eq. by rewrite F4, F2, F1. }
  split.
  - rewrite F12, F11. simpl. by rewrite F9.
  - rewrite P12, P11. simpl. rewrite P9. simpl. by rewrite P4, P2, P1.
Qed.

(** C3: a call on a path whose suffix is not a supported one, or that is
    already in [processed_files], returns [False] without raising and
    leaves the world as it was, the file with it; and after a call that
    returned [True], a second call on the same path is such a call. *)
Theorem strip_skips_unsupported_and_processed :
  (forall (w : world) (path : string),
     is_image_file path = false \/ path ∈ w_processed w ->
     clean_image_metadata path w = (w, Ret false)) /\
  (forall (w w' : world) (path : string),
     clean_image_metadata path w = (w', Ret true) ->
     clean_image_metadata path w' = (w', Ret false)).
Proof.
  assert (Hskip : forall (w : world) (path : string),
     is_image_file path = false \/ path ∈ w_processed w ->
     clean_image_metadata path w = (w, Ret false)).
  { intros w path H.
    unfold clean_image_metadata, try_except, clean_image_metadata_body.
    destruct (is_image_file path); simpl; [|done].
    destruct H as [H|H]; [discriminate|].
    unfold bind, gets. by rewrite (bool_decide_eq_true_2 _ H). }
  split; [exact Hskip|].
  intros w w' path H. apply Hskip. right.
  apply clean_returns_true in H
    as (_ & _ & f & img & fmt & opts & data & w0 & w1 & w2 & _ & _ & _ & _ & _ & _ & _ & _ & _ & ->).
  set_solver.
Qed.




End StripperFacts.

(** C2, counterexample: the second tag of the table fails to decode after
    the first was stored; the block raises and the snapshot keeps [Make]
    beside [Error]. *)
Lemma get_metadata_error_not_alone :
  snd (get_metadata_body (open_image Small.half_decoded_world "in/a.jpg") []) =
    Raise (Exn OtherException "unpack requires a buffer of 8 bytes") /\
  snd (get_metadata "in/a.jpg" Small.half_decoded_world) =
    Ret [(KStr "Make", VStr "AcmeCorp");
         (KStr "Error", VStr "unpack requires a buffer of 8 bytes")] /\
  snd (get_metadata "in/a.jpg" Small.half_decoded_world) <>
    Ret [(KStr "Error", VStr "unpack requires a buffer of 8 bytes")].
Proof. split; [vm_compute; reflexivity|]. split; [vm_compute; reflexivity | discriminate]. Qed.

(** The same file: the snapshot is the stored [Make] with [Error] added. *)
Lemma get_metadata_adds_error_witness :
  exists metadata,
    get_metadata "in/a.jpg" Small.half_decoded_world =
      (Small.half_decoded_world, Ret metadata) /\
    metadata = [(KStr "Make", VStr "AcmeCorp");
                (KStr "Error", VStr "unpack requires a buffer of 8 bytes")].
Proof.
  destruct (get_metadata_adds_error (P := Small.small_pillow)
              Small.half_decoded_world "in/a.jpg") as (metadata & Hrun & Herr).
  exists metadata. split; [exact Hrun|].
  assert (Hraised : snd (get_metadata_body
                          (open_image Small.half_decoded_world "in/a.jpg") []) =
                    Raise (Exn OtherException "unpack requires a buffer of 8 bytes"))
    by (vm_compute; reflexivity).
  destruct (Herr _ Hraised) as (-> & _).
  vm_compute. reflexivity.
Defined.

(** C8 on the code: for a snapshot of the three descriptive fields alone
    the reporter prints the header line and nothing else; the line
    [No metadata found] belongs to the empty snapshot only.  So the two
    reports of stripping a PNG with an alpha channel and no tags are the
    two header lines. *)
Theorem descriptive_only_report (format mode size : pyval) (label : string)
    (out : list string) :
  display_metadata [(KStr "Image Format", format); (KStr "Image Mode", mode);
                    (KStr "Image Size", size)] label out =
    ((out ++ ["  " +:+ label +:+ ":"])%list, Ret tt) /\
  display_metadata [] label out =
    ((out ++ ["  " +:+ label +:+ ": No metadata found"])%list, Ret tt) /\
  snd (clean_image_metadata "in/a.png" Small.alpha_png_world) = Ret true /\
  w_stdout (fst (clean_image_metadata "in/a.png" Small.alpha_png_world)) =
    [ newline +:+ processing_banner +:+ "a.png";
      str_repeat "-" 50;
      "  Metadata BEFORE cleaning:";
      "  Metadata AFTER cleaning:";
      cleaned_banner +:+ "a.png";
      str_repeat "-" 50 ].
Proof. repeat split; vm_compute; reflexivity. Qed.



(** A text file is skipped, and so is the photo on the second call. *)
Lemma strip_skips_unsupported_and_processed_witness :
  clean_image_metadata "in/notes.txt" Small.photo_world = (Small.photo_world, Ret false) /\
  clean_image_metadata "in/photo.jpg"
      (fst (clean_image_metadata "in/photo.jpg" Small.photo_world)) =
    (fst (clean_image_metadata "in/photo.jpg" Small.photo_world), Ret false).
Proof.
  destruct (strip_skips_unsupported_and_processed (P := Small.small_pillow))
    as [Hskip Hagain].
  split.
  - apply Hskip. left. vm_compute. reflexivity.
  - apply Hagain with (w := Small.photo_world). vm_compute. reflexivity.
Defined.



(** * Further properties *)

(** ** Invariants of a computation *)

Lemma keeps_ret {St A} (Inv : St -> Prop) (a : A) : keeps Inv (ret a).
Proof. by intros s. Qed.

Lemma keeps_lift {St A} (Inv : St -> Prop) (o : outcome A) : keeps Inv (lift_outcome o).
Proof. by intros s. Qed.

Lemma keeps_bind {St A B} (Inv : St -> Prop) (m : SE St A) (k : A -> SE St B) :
  keeps Inv m -> (forall a, keeps Inv (k a)) -> keeps Inv (bind m k).
Proof.
  intros Hm Hk s Hs. unfold bind. specialize (Hm s Hs).
  destruct (m s) as [s1 [a|e]]; simpl in Hm; [by apply Hk | done].
Qed.

Lemma keeps_try {St A} (Inv : St -> Prop) (body : SE St A) sel handler :
  keeps Inv body -> (forall e, keeps Inv (handler e)) ->
  keeps Inv (try_except body sel handler).
Proof.
  intros Hb Hh s Hs. unfold try_except. specialize (Hb s Hs).
  destruct (body s) as [s1 [a|e]]; simpl in Hb; [done|].
  destruct (sel e); [by apply Hh | done].
Qed.

(** ** The sub-table of GPS tags *)

Lemma dict_set_NoDup d k v : NoDup (dict_keys d) -> NoDup (dict_keys (dict_set d k v)).
Proof.
  unfold dict_keys. induction d as [|[k0 v0] d IH]; simpl; intros Hd.
  - apply NoDup_singleton.
  - apply NoDup_cons in Hd as [Hk0 Hd].
    destruct (pykey_eqb_spec k0 k) as [->|Hne]; simpl.
    + by apply NoDup_cons.
    + apply NoDup_cons. split; [|by apply IH].
      intros Hin. apply list_elem_of_In, (dict_set_keys d k v k0) in Hin.
      destruct Hin as [->|Hin]; [done|]. by apply Hk0, list_elem_of_In.
Qed.

Section ExtractorMore.
Context {P : Pillow}.

Lemma resolve_gps_snoc d k v :
  resolve_gps (d ++ [(k, v)])%list = dict_set (resolve_gps d) (resolve GPSTAGS k) v.
Proof. unfold resolve_gps. by rewrite fold_left_app. Qed.

Lemma resolve_gps_key_iff (gps_dict : pydict) name :
  In name (dict_keys (resolve_gps gps_dict)) <->
  exists k, In k (dict_keys gps_dict) /\ name = resolve GPSTAGS k.
Proof.
  revert name. induction gps_dict as [|[k v] d IH] using rev_ind; intros name.
  - simpl. split; [done | by intros (k & [] & _)].
  - rewrite resolve_gps_snoc, dict_set_keys, IH.
    unfold dict_keys. rewrite map_app. simpl. split.
    + intros [->|(k0 & Hk0 & ->)].
      * exists k. split; [|done]. apply in_or_app. right. by left.
      * exists k0. split; [|done]. apply in_or_app. by left.
    + intros (k0 & Hk0 & ->). apply in_app_or in Hk0 as [Hk0|[<-|[]]]; eauto.
Qed.

(** A value stored under a name stays there while no later key resolves
    to that name. *)
Lemma resolve_gps_keeps_value (rest : pydict) (gps_data : pydict) name v :
  dict_get gps_data name = Some v ->
  (forall kv, In kv rest -> resolve GPSTAGS (fst kv) <> name) ->
  dict_get (fold_left (fun gps_data kv =>
                         dict_set gps_data (resolve GPSTAGS (fst kv)) (snd kv))
                      rest gps_data) name = Some v.
Proof.
  revert gps_data. induction rest as [|[k' v'] rest IH]; intros gps_data Hget Hrest.
  - exact Hget.
  - cbn [fold_left fst snd]. apply IH.
    + rewrite dict_get_set_ne; [exact Hget|].
      apply (Hrest (k', v')). by left.
    + intros kv Hkv. apply Hrest. by right.
Qed.

(** X1: the sub-table stored under [GPSInfo] has pairwise distinct keys,
    and its keys are the resolved names of the raw sub-table's keys and no
    others.  Under a name it has the value of the last raw key that
    resolves to that name, wherever in the raw sub-table that key is: of
    two raw keys that resolve to one name, the value of the later one is
    kept. *)
Theorem resolve_gps_keys (gps_dict : pydict) :
  NoDup (dict_keys (resolve_gps gps_dict)) /\
  (forall name, In name (dict_keys (resolve_gps gps_dict)) <->
                exists k, In k (dict_keys gps_dict) /\ name = resolve GPSTAGS k) /\
  (forall d k v rest,
     gps_dict = (d ++ (k, v) :: rest)%list ->
     (forall kv, In kv rest -> resolve GPSTAGS (fst kv) <> resolve GPSTAGS k) ->
     dict_get (resolve_gps gps_dict) (resolve GPSTAGS k) = Some v) /\
  (forall d k1 v1 mid k2 v2,
     gps_dict = (d ++ (k1, v1) :: mid ++ [(k2, v2)])%list ->
     resolve GPSTAGS k1 = resolve GPSTAGS k2 ->
     dict_get (resolve_gps gps_dict) (resolve GPSTAGS k1) = Some v2).
Proof.
  assert (Hlast : forall d k v rest,
     gps_dict = (d ++ (k, v) :: rest)%list ->
     (forall kv, In kv rest -> resolve GPSTAGS (fst kv) <> resolve GPSTAGS k) ->
     dict_get (resolve_gps gps_dict) (resolve GPSTAGS k) = Some v).
  { intros d k v rest -> Hrest. unfold resolve_gps.
    rewrite fold_left_app. cbn [fold_left fst snd].
    apply resolve_gps_keeps_value; [apply dict_get_set_eq | exact Hrest]. }
  split; [|split; [|split]].
  - clear Hlast.
    induction gps_dict as [|[k v] d IH] using rev_ind; [apply NoDup_nil_2|].
    rewrite resolve_gps_snoc. by apply dict_set_NoDup.
  - apply resolve_gps_key_iff.
  - exact Hlast.
  - intros d k1 v1 mid k2 v2 Hd Heq. rewrite Heq.
    apply (Hlast (d ++ (k1, v1) :: mid)%list k2 v2 []).
    + by rewrite Hd, <- app_assoc.
    + intros kv [].
Qed.

(** X3: under [MakerNote] the snapshot takes a placeholder text and never
    the raw value: for a byte sequence the text names only the number of
    bytes, so two blocks of one length are stored alike, and for any other
    value it is one fixed text. *)
Theorem makernote_is_redacted (flag : bool) (tag_id : Z) (metadata : pydict) :
  TAGS tag_id = Some "MakerNote" ->
  (forall b : list Byte.byte,
     process_tag flag tag_id (VBytes b) metadata =
       (dict_set metadata (KStr "MakerNote")
          (VStr ("<Proprietary data: " +:+ str_int (Z.of_nat (length b)) +:+
                 " bytes - May contain device serial numbers>")), Ret tt)) /\
  (forall b b' : list Byte.byte,
     length b = length b' ->
     process_tag flag tag_id (VBytes b) metadata =
     process_tag flag tag_id (VBytes b') metadata) /\
  (forall value,
     (forall b, value <> VBytes b) ->
     process_tag flag tag_id value metadata =
       (dict_set metadata (KStr "MakerNote")
          (VStr "<Proprietary manufacturer data - May contain device serial numbers>"),
        Ret tt)).
Proof.
  intros Htag.
  assert (Hb : forall b : list Byte.byte,
     process_tag flag tag_id (VBytes b) metadata =
       (dict_set metadata (KStr "MakerNote")
          (VStr ("<Proprietary data: " +:+ str_int (Z.of_nat (length b)) +:+
                 " bytes - May contain device serial numbers>")), Ret tt)).
  { intros b. unfold process_tag, resolve. rewrite Htag. reflexivity. }
  split; [exact Hb|]. split.
  - intros b b' Hlen. by rewrite !Hb, Hlen.
  - intros value Hv. unfold process_tag, resolve. rewrite Htag.
    destruct value; try reflexivity. by destruct (Hv b).
Qed.

(** Once [GPSInfo] was resolved before the loop, no turn of the loop
    writes under that name. *)
Lemma tag_step_resolved_keeps_gps item s :
  dict_get (fst (tag_step true item s)) (KStr "GPSInfo") = dict_get s (KStr "GPSInfo").
Proof.
  destruct (TAGS (fst item)) as [name|] eqn:Hname.
  - destruct (String.eqb_spec name "GPSInfo") as [->|Hne].
    + unfold tag_step, bind, lift_outcome.
      destruct (snd item) as [v|e]; [|done].
      unfold process_tag, resolve. by rewrite Hname.
    + apply tag_step_keeps. simpl. rewrite Hname. congruence.
  - apply tag_step_keeps. simpl. by rewrite Hname.
Qed.

(** X4: when the primary [GPSInfo] tag holds a bare integer and the
    deprecated reader has a sub-table under that tag, the snapshot has
    under [GPSInfo] that sub-table with its names resolved; the tag loop
    leaves it alone, whatever the tags of the table and whether or not
    they decode. *)
Theorem legacy_gps_takes_precedence (img : image) (pre post : list (Z * outcome pyval))
    (gps_tag_id n : Z) (old gps_dict : pydict) :
  getexif img = Ret (pre ++ (gps_tag_id, Ret (VInt n)) :: post)%list ->
  TAGS gps_tag_id = Some "GPSInfo" ->
  (forall item, In item pre -> TAGS (fst item) <> Some "GPSInfo") ->
  _getexif img = Ret (Some old) ->
  dict_get old (KInt gps_tag_id) = Some (VDict gps_dict) ->
  exists metadata,
    get_metadata_of (Ret img) = Ret metadata /\
    dict_get metadata (KStr "GPSInfo") = Some (VDict (resolve_gps gps_dict)).
Proof.
  intros Hexif Hg Hpre Hlegacy Hold.
  set (sub := VDict (resolve_gps gps_dict)).
  assert (Hbody : dict_get (fst (get_metadata_body (Ret img) [])) (KStr "GPSInfo") = Some sub).
  { unfold get_metadata_body, bind, lift_outcome. rewrite Hexif.
    unfold gps_prepass, process_tags.
    replace (negb (length (pre ++ (gps_tag_id, Ret (VInt n)) :: post)%list =? 0)%nat)
      with true by (rewrite length_app; simpl; symmetry; apply negb_true_iff, Nat.eqb_neq; lia).
    rewrite find_gps_tag_id_app by done.
    unfold bind, lift_outcome. rewrite exif_get_app by done.
    assert (Hleg : legacy_gps img gps_tag_id [] = ([(KStr "GPSInfo", sub)], Ret true)).
    { unfold legacy_gps, try_except, bind, lift_outcome. rewrite Hlegacy.
      unfold dict_mem. rewrite Hold.
      destruct old; [discriminate|]. reflexivity. }
    rewrite Hleg.
    change (for_each ?l _) with (for_each l (tag_step true)).
    pose proof (for_each_keeps (fun s => dict_get s (KStr "GPSInfo") = Some sub)
                  (tag_step true) (pre ++ (gps_tag_id, Ret (VInt n)) :: post)%list
                  (fun item s _ Hs => eq_trans (tag_step_resolved_keeps_gps item s) Hs)
                  [(KStr "GPSInfo", sub)] eq_refl) as Hk.
    destruct (for_each _ _ _) as [s2 [[]|e]]; simpl in Hk; [|apply Hk].
    rewrite store_image_info_run. simpl.
    by rewrite !dict_get_set_ne by discriminate. }
  rewrite get_metadata_of_cases.
  destruct (get_metadata_body (Ret img) []) as [s [[]|e]]; simpl in Hbody; [eauto|].
  eexists. split; [done|]. by rewrite dict_get_set_ne by discriminate.
Qed.
End ExtractorMore.

(** Under [MakerNote] two bytes are stored as their count. *)
Lemma makernote_is_redacted_witness :
  process_tag (P := Small.small_pillow) false 37500 (VBytes [Byte.x53; Byte.x4e]) [] =
    ([(KStr "MakerNote",
       VStr "<Proprietary data: 2 bytes - May contain device serial numbers>")], Ret tt).
Proof.
  apply (makernote_is_redacted (P := Small.small_pillow) false 37500 []).
  reflexivity.
Defined.

(** A GPS pointer that the deprecated reader resolves to a latitude and a
    sub-tag without a name. *)
Lemma legacy_gps_takes_precedence_witness :
  exists metadata,
    get_metadata_of (P := Small.small_pillow)
      (Ret (Small.jpeg [(271%Z, Ret (VStr "AcmeCorp")); (34853%Z, Ret (VInt 1234))]
              (Ret (Some [(KInt 34853, VDict [(KInt 2, VOther "40.0"); (KInt 77, VInt 1)])]))))
      = Ret metadata /\
    dict_get metadata (KStr "GPSInfo") =
      Some (VDict [(KStr "GPSLatitude", VOther "40.0"); (KInt 77, VInt 1)]).
Proof.
  apply (legacy_gps_takes_precedence (P := Small.small_pillow)
           (Small.jpeg [(271%Z, Ret (VStr "AcmeCorp")); (34853%Z, Ret (VInt 1234))]
              (Ret (Some [(KInt 34853, VDict [(KInt 2, VOther "40.0"); (KInt 77, VInt 1)])])))
           [(271%Z, Ret (VStr "AcmeCorp"))] [] 34853 1234
           [(KInt 34853, VDict [(KInt 2, VOther "40.0"); (KInt 77, VInt 1)])]
           [(KInt 2, VOther "40.0"); (KInt 77, VInt 1)]).
  - reflexivity.
  - reflexivity.
  - intros item [<-|[]]. vm_compute. discriminate.
  - reflexivity.
  - reflexivity.
Defined.

(** ** Text *)

Lemma append_assoc_s (a b c : string) : (a +:+ b) +:+ c = a +:+ b +:+ c.
Proof. induction a as [|x a IH]; [done|]. by rewrite !append_cons, IH. Qed.

Lemma text_len_app (a b : string) : text_len (a +:+ b) = (text_len a + text_len b)%nat.
Proof.
  induction a as [|c a IH]; [done|]. rewrite append_cons. simpl.
  destruct (is_continuation c); lia.
Qed.

Lemma text_len_take n s : (text_len (text_take n s) <= n)%nat.
Proof.
  revert n. induction s as [|c s IH]; intros n; simpl; [lia|].
  destruct (is_continuation c) eqn:E; simpl; rewrite ?E; [apply IH|].
  destruct n; simpl; [lia|]. rewrite E. specialize (IH n). lia.
Qed.

Lemma shown_value_bound value : (text_len (shown_value value) <= 103)%nat.
Proof.
  unfold shown_value. destruct (Nat.ltb_spec 100 (text_len (py_str value))); [|lia].
  rewrite text_len_app. pose proof (text_len_take 100 (py_str value)).
  change (text_len "...") with 3%nat. lia.
Qed.

Lemma display_item_line key value out :
  is_descriptive (KStr key) = false ->
  (key = "GPSInfo" -> forall d, value <> VDict d) ->
  display_item (KStr key) value out = ((out ++ [report_line key value])%list, Ret tt).
Proof.
  intros Hdesc Hgps. unfold display_item. rewrite Hdesc.
  unfold key_lower, bind, ret, report_line, shown_value. cbn [key_str].
  assert (Hplain : forall (b : bool) (X : SE (list string) unit),
    (if b then X else X) = X) by (by intros []).
  destruct (pykey_eqb_spec (KStr key) (KStr "GPSInfo")) as [[= ->]|Hne].
  - destruct value; try (destruct (is_serial _), (is_sensitive _); reflexivity).
    by destruct (Hgps eq_refl d).
  - destruct value; destruct (is_serial _), (is_sensitive _); reflexivity.
Qed.

(** X5: a tag with a text name that is not a descriptive field, whose value
    is not the [GPSInfo] sub-table, gives one report line and no error.
    The line shows at most 103 characters of the value (100 and the
    ellipsis), the whole value when it has at most 100; a name with
    [serial] in it gets the device-serial note whether or not it is
    sensitive. *)
Theorem report_entry_line (key : string) (value : pyval) (out : list string) :
  is_descriptive (KStr key) = false ->
  (key = "GPSInfo" -> forall d, value <> VDict d) ->
  display_item (KStr key) value out = ((out ++ [report_line key value])%list, Ret tt) /\
  (text_len (shown_value value) <= 103)%nat /\
  ((text_len (py_str value) <= 100)%nat -> shown_value value = py_str value) /\
  (is_serial key = true ->
   exists line, report_line key value = line +:+ warn_serial).
Proof.
  intros Hdesc Hgps. split; [by apply display_item_line|].
  split; [apply shown_value_bound|]. split.
  - intros Hlen. unfold shown_value.
    by destruct (Nat.ltb_spec 100 (text_len (py_str value))); [lia|].
  - intros Hs. unfold report_line. rewrite Hs. eexists.
    by rewrite <- !append_assoc_s.
Qed.

Lemma report_entry_line_witness :
  display_item (KStr "LensSerialNumber") (VStr "L-0042") [] =
    (["    " +:+ lock_marker +:+ "LensSerialNumber: L-0042" +:+ warn_serial], Ret tt).
Proof.
  apply (report_entry_line "LensSerialNumber" (VStr "L-0042") []).
  - reflexivity.
  - discriminate.
Defined.

(** ** A failed extraction, reported *)

Section FailedExtraction.
Context {P : Pillow}.

(** X6: when opening the file or reading its tag table raises, the
    snapshot is the [Error] entry alone and its report is the header line
    and one unmarked [Error] line with the message, cut to 100 characters
    when it is longer. *)
Theorem failed_extraction_report (opened : outcome image) (e : exn)
    (label : string) (out : list string) :
  opened = Raise e \/ (exists img, opened = Ret img /\ getexif img = Raise e) ->
  get_metadata_of opened = Ret [(KStr "Error", VStr (exn_msg e))] /\
  display_metadata [(KStr "Error", VStr (exn_msg e))] label out =
    ((out ++ ["  " +:+ label +:+ ":";
              "    Error: " +:+ shown_value (VStr (exn_msg e))])%list, Ret tt).
Proof.
  intros H. split.
  - rewrite get_metadata_of_cases. unfold get_metadata_body, bind, lift_outcome.
    destruct H as [->|(img & -> & ->)]; reflexivity.
  - unfold display_metadata. cbn [dict_is_empty].
    unfold bind. rewrite print_appends. cbn [lift_outcome sorted sorted_onto insert_item].
    unfold lift_outcome. rewrite for_each_cons. cbn [fst snd].
    rewrite display_item_line by (done || discriminate).
    cbn [for_each]. unfold ret. rewrite <- app_assoc. reflexivity.
Qed.
End FailedExtraction.

Lemma failed_extraction_report_witness :
  get_metadata_of (P := Small.small_pillow)
    (Raise (Exn OtherException "cannot identify image file")) =
    Ret [(KStr "Error", VStr "cannot identify image file")] /\
  display_metadata [(KStr "Error", VStr "cannot identify image file")]
                   "Metadata BEFORE cleaning" [] =
    (["  Metadata BEFORE cleaning:"; "    Error: cannot identify image file"], Ret tt).
Proof.
  apply (failed_extraction_report (P := Small.small_pillow)
           (Raise (Exn OtherException "cannot identify image file"))
           (Exn OtherException "cannot identify image file")
           "Metadata BEFORE cleaning" []).
  by left.
Defined.

(** ** Serial-number terms *)

(** X7: a tag name that contains, letter case aside, one of the six
    serial-number terms of the sensitive set is marked both sensitive and
    a hardware identifier. *)
Theorem serial_terms_flag_both (key term : string) :
  In term serial_terms -> contains_ci key term ->
  is_sensitive key = true /\ is_serial key = true.
Proof.
  intros Hterm (pre & post & Hkey). split.
  - unfold is_sensitive. apply existsb_exists. exists term. split.
    + unfold serial_terms, sensitive_fields in *. simpl in *. tauto.
    + apply str_in_iff. eauto.
  - assert (Hs : str_in "serial" (lower term) = true).
    { unfold serial_terms in Hterm. simpl in Hterm.
      destruct Hterm as [<-|[<-|[<-|[<-|[<-|[<-|[]]]]]]]; reflexivity. }
    apply str_in_iff in Hs as (a & b & Hs).
    unfold is_serial. apply str_in_iff.
    exists (pre +:+ a), (b +:+ post).
    rewrite Hkey, Hs. by rewrite !append_assoc_s.
Qed.

Lemma serial_terms_flag_both_witness :
  is_sensitive "Exif.Photo.bodyserialNUMBER" = true /\
  is_serial "Exif.Photo.bodyserialNUMBER" = true.
Proof.
  apply (serial_terms_flag_both "Exif.Photo.bodyserialNUMBER" "BodySerialNumber").
  - right. by left.
  - by exists "exif.photo.", "".
Defined.

(** ** The order of the report *)

Lemma string_ltb_lt a b : String.ltb a b = true <-> OrderedTypeEx.String_as_OT.lt a b.
Proof.
  unfold String.ltb. rewrite <- OrderedTypeEx.String_as_OT.cmp_lt.
  unfold OrderedTypeEx.String_as_OT.cmp.
  destruct (String.compare a b); split; congruence.
Qed.

Lemma string_ltb_asym a b : String.ltb a b = true -> String.ltb b a = false.
Proof.
  unfold String.ltb. rewrite (String.compare_antisym a b).
  by destruct (String.compare b a).
Qed.

Lemma string_not_ltb_trans a b c :
  String.ltb b a = false -> String.ltb c b = false -> String.ltb c a = false.
Proof.
  intros Hba Hcb. destruct (String.ltb c a) eqn:Hca; [|done].
  destruct (String.compare a b) eqn:Hab.
  - apply String.compare_eq_iff in Hab as ->. congruence.
  - assert (Hlt : String.ltb a b = true) by (unfold String.ltb; by rewrite Hab).
    apply string_ltb_lt in Hlt, Hca.
    pose proof (OrderedTypeEx.String_as_OT.lt_trans _ _ _ Hca Hlt) as Hcb'.
    apply string_ltb_lt in Hcb'. congruence.
  - unfold String.ltb in Hba. rewrite (String.compare_antisym b a), Hab in Hba.
    discriminate.
Qed.

Lemma key_lt_asym a b : key_lt a b = Ret true -> key_lt b a = Ret false.
Proof.
  destruct a as [m|s], b as [n|t]; simpl; intros [= H]; f_equal.
  - lia.
  - by apply string_ltb_asym.
Qed.

Lemma key_not_lt_trans a b c :
  key_lt b a = Ret false -> key_lt c b = Ret false -> key_lt c a = Ret false.
Proof.
  destruct a as [m|s], b as [n|t], c as [p|u]; simpl; intros [= H1] [= H2]; f_equal.
  - lia.
  - by eapply string_not_ltb_trans.
Qed.

Lemma insert_item_sorted x l r :
  insert_item x l = Ret r ->
  StronglySorted key_not_after l ->
  r ≡ₚ x :: l /\ StronglySorted key_not_after r.
Proof.
  revert r. induction l as [|y l IH]; intros r; simpl.
  - intros [= <-] _. split; [done|]. repeat constructor.
  - destruct (key_lt (fst x) (fst y)) as [[]|e] eqn:Hxy; [| |discriminate].
    + intros [= <-] Hs. split; [done|]. constructor; [done|].
      apply StronglySorted_inv in Hs as [Hl Hy].
      constructor.
      * by apply key_lt_asym.
      * eapply Forall_impl; [exact Hy|]. intros z Hz. unfold key_not_after in *.
        eapply key_not_lt_trans; [|exact Hz]. by apply key_lt_asym.
    + destruct (insert_item x l) as [r'|e] eqn:Hins; [|discriminate].
      intros [= <-] Hs. apply StronglySorted_inv in Hs as [Hl Hy].
      destruct (IH r' eq_refl Hl) as [Hperm Hsorted]. split.
      * rewrite Hperm. apply perm_swap.
      * constructor; [done|]. rewrite Hperm. by constructor.
Qed.

Lemma sorted_onto_sorted l : forall acc r,
  sorted_onto acc l = Ret r ->
  StronglySorted key_not_after acc ->
  r ≡ₚ (acc ++ l)%list /\ StronglySorted key_not_after r.
Proof.
  induction l as [|x l IH]; intros acc r; simpl.
  - intros [= <-] Hs. by rewrite app_nil_r.
  - destruct (insert_item x acc) as [acc'|e] eqn:Hins; [|discriminate].
    intros Hr Hs. destruct (insert_item_sorted _ _ _ Hins Hs) as [Hperm Hs'].
    destruct (IH _ _ Hr Hs') as [Hperm' Hsorted]. split; [|done].
    rewrite Hperm', Hperm. simpl. apply Permutation_middle.
Qed.

Lemma sorted_onto_one_kind l : forall acc t,
  keys_of_kind t acc -> keys_of_kind t l -> exists r, sorted_onto acc l = Ret r.
Proof.
  induction l as [|x l IH]; intros acc t Hacc Hl; simpl; [eauto|].
  assert (Hx : is_int_key (fst x) = t) by (apply Hl; by left). subst t.
  destruct (insert_item_same x acc Hacc) as (r & -> & _ & Hr).
  apply (IH r _ Hr). intros kv Hkv. apply Hl. by right.
Qed.

(** X8: [sorted] returns exactly when the keys are all integers or all
    texts.  What it returns then has the items it was given, each once:
    none is lost or repeated, and no item's key is below the key of an
    item before it. *)
Theorem sorted_returns_ordered (d : pydict) :
  ((exists r, sorted d = Ret r) <-> (exists t, keys_of_kind t d)) /\
  (forall r, sorted d = Ret r -> r ≡ₚ d /\ StronglySorted key_not_after r).
Proof.
  split.
  - split.
    + intros [r Hr]. destruct d as [|x d]; [by exists true; intros kv []|].
      exists (is_int_key (fst x)). intros kv [<-|Hin]; [done|].
      destruct (bool_decide (is_int_key (fst kv) = is_int_key (fst x))) eqn:E.
      * by apply bool_decide_eq_true in E.
      * apply bool_decide_eq_false in E.
        destruct (sorted_onto_mixed d [x] (is_int_key (fst x))) as [msg Hm];
          [done | by intros kv' [<-|[]] | eauto |].
        unfold sorted in Hr. simpl in Hr, Hm. congruence.
    + intros [t Ht]. apply (sorted_onto_one_kind d [] t); [by intros kv []|done].
  - intros r Hr. apply (sorted_onto_sorted d [] r Hr). constructor.
Qed.

(** X9: a [GPSInfo] sub-table with a numeric key and a text key makes the
    reporter raise [TypeError] when it sorts the sub-table, after the
    line that opens the location data; the extractor stores such a
    sub-table whenever the raw one has an id [GPSTAGS] names and one it
    does not. *)
Theorem gps_subtable_mixed_keys {P : Pillow} (gps_dict : pydict) (known unknown : Z)
    (name : string) (out : list string) :
  GPSTAGS known = Some name -> GPSTAGS unknown = None ->
  In (KInt known) (dict_keys gps_dict) -> In (KInt unknown) (dict_keys gps_dict) ->
  exists msg,
    display_item (KStr "GPSInfo") (VDict (resolve_gps gps_dict)) out =
      ((out ++ ["    " +:+ lock_marker +:+ "GPSInfo (Location Data):"])%list,
       Raise (Exn TypeError msg)).
Proof.
  intros Hknown Hunknown Hin1 Hin2.
  destruct (sorted_mixed (resolve_gps gps_dict) unknown name) as [msg Hsort].
  - apply resolve_gps_key_iff. exists (KInt unknown). split; [done|].
    simpl. by rewrite Hunknown.
  - apply resolve_gps_key_iff. exists (KInt known). split; [done|].
    simpl. by rewrite Hknown.
  - exists msg. unfold display_item.
    change (is_descriptive (KStr "GPSInfo")) with false. cbv iota.
    unfold key_lower, bind, ret. cbn [key_str pykey_eqb].
    change (is_sensitive "GPSInfo") with true.
    change ("GPSInfo" =? "GPSInfo")%string with true. cbv beta iota.
    rewrite print_appends. unfold lift_outcome. rewrite Hsort. reflexivity.
Qed.

Lemma gps_subtable_mixed_keys_witness :
  exists msg,
    display_item (KStr "GPSInfo")
      (VDict (resolve_gps (P := Small.small_pillow)
                [(KInt 2, VOther "40.0"); (KInt 77, VInt 1)])) [] =
      (["    " +:+ lock_marker +:+ "GPSInfo (Location Data):"],
       Raise (Exn TypeError msg)).
Proof.
  apply (gps_subtable_mixed_keys (P := Small.small_pillow)
           [(KInt 2, VOther "40.0"); (KInt 77, VInt 1)] 2 77 "GPSLatitude" []).
  - reflexivity.
  - reflexivity.
  - by left.
  - right. by left.
Defined.

(** Three tag names, sorted: capital letters come before small ones. *)
Lemma sorted_returns_ordered_witness :
  [(KStr "Artist", VStr "Ann"); (KStr "Make", VStr "AcmeCorp"); (KStr "artist", VNone)]
    ≡ₚ [(KStr "Make", VStr "AcmeCorp"); (KStr "artist", VNone); (KStr "Artist", VStr "Ann")] /\
  StronglySorted key_not_after
    [(KStr "Artist", VStr "Ann"); (KStr "Make", VStr "AcmeCorp"); (KStr "artist", VNone)].
Proof.
  apply (proj2 (sorted_returns_ordered
                  [(KStr "Make", VStr "AcmeCorp"); (KStr "artist", VNone);
                   (KStr "Artist", VStr "Ann")])).
  reflexivity.
Defined.

(** ** Decoding bytes *)

Lemma byte_of_ch c : byte_of_ascii (ch c) = c.
Proof. apply byte_of_ascii_of_byte. Qed.

Lemma bytes_cons a s :
  list_byte_of_string (String a s) = byte_of_ascii a :: list_byte_of_string s.
Proof. reflexivity. Qed.

Lemma byte_in_iff lo hi c :
  byte_in lo hi c = true <-> (lo <= Byte.to_N c /\ Byte.to_N c <= hi)%N.
Proof. unfold byte_in. by rewrite andb_true_iff, !N.leb_le. Qed.

Lemma byte_in_not lo hi c :
  byte_in lo hi c = false <-> (Byte.to_N c < lo \/ hi < Byte.to_N c)%N.
Proof. unfold byte_in. by rewrite andb_false_iff, !N.leb_gt. Qed.

(** The bounds on the second byte, row by row. *)
Lemma second_ok_iff c c1 :
  second_ok c c1 = true <->
  (Byte.to_N c = 224 /\ byte_in 160 191 c1 = true)%N \/
  (Byte.to_N c = 237 /\ byte_in 128 159 c1 = true)%N \/
  (Byte.to_N c = 240 /\ byte_in 144 191 c1 = true)%N \/
  (Byte.to_N c = 244 /\ byte_in 128 143 c1 = true)%N \/
  (Byte.to_N c <> 224 /\ Byte.to_N c <> 237 /\ Byte.to_N c <> 240 /\
   Byte.to_N c <> 244 /\ byte_in 128 191 c1 = true)%N.
Proof.
  unfold second_ok.
  destruct (N.eqb_spec (Byte.to_N c) 224) as [->|H1]; [intuition (try lia; try discriminate)|].
  destruct (N.eqb_spec (Byte.to_N c) 237) as [->|H2]; [intuition (try lia; try discriminate)|].
  destruct (N.eqb_spec (Byte.to_N c) 240) as [->|H3]; [intuition (try lia; try discriminate)|].
  destruct (N.eqb_spec (Byte.to_N c) 244) as [->|H4]; [intuition (try lia; try discriminate)|].
  intuition (try lia; try discriminate).
Qed.

Lemma well_formed_three c c1 c2 r :
  byte_in 224 239 c = true -> second_ok c c1 = true -> byte_in 128 191 c2 = true ->
  well_formed r -> well_formed (c :: c1 :: c2 :: r).
Proof.
  intros Hc Hc1 Hc2 Hr. apply byte_in_iff in Hc. apply second_ok_iff in Hc1.
  destruct Hc1 as [[E H]|[[E H]|[[E H]|[[E H]|(N1 & N2 & N3 & N4 & H)]]]]; try lia.
  - apply wf_e0; try done. apply byte_in_iff. lia.
  - apply wf_ed; try done. apply byte_in_iff. lia.
  - destruct (N.le_gt_cases (Byte.to_N c) 236).
    + apply wf_e1_ec; try done. apply byte_in_iff. lia.
    + apply wf_ee_ef; try done. apply byte_in_iff. lia.
Qed.

Lemma well_formed_four c c1 c2 c3 r :
  byte_in 240 244 c = true -> second_ok c c1 = true -> byte_in 128 191 c2 = true ->
  byte_in 128 191 c3 = true -> well_formed r -> well_formed (c :: c1 :: c2 :: c3 :: r).
Proof.
  intros Hc Hc1 Hc2 Hc3 Hr. apply byte_in_iff in Hc. apply second_ok_iff in Hc1.
  destruct Hc1 as [[E H]|[[E H]|[[E H]|[[E H]|(N1 & N2 & N3 & N4 & H)]]]]; try lia.
  - apply wf_f0; try done. apply byte_in_iff. lia.
  - apply wf_f4; try done. apply byte_in_iff. lia.
  - apply wf_f1_f3; try done. apply byte_in_iff. lia.
Qed.

(** What the decoder keeps is well-formed, and is what is left of the
    input when bytes are taken out of it. *)
Lemma utf8_decode_ignore_facts n : forall b : list Byte.byte,
  (length b <= n)%nat ->
  well_formed (list_byte_of_string (utf8_decode_ignore b)) /\
  list_byte_of_string (utf8_decode_ignore b) `sublist_of` b.
Proof.
  induction n as [|n IH]; intros b Hn.
  { destruct b; [split; constructor | simpl in Hn; lia]. }
  destruct b as [|c r0]; [split; constructor|].
  simpl in Hn. cbn [utf8_decode_ignore].
  assert (H0 := IH r0 ltac:(lia)).
  assert (Hnil : forall l : list Byte.byte,
            well_formed (list_byte_of_string "") /\ list_byte_of_string "" `sublist_of` l).
  { intros l. split; [constructor | apply sublist_nil_l]. }
  assert (Hdrop : forall (x : Byte.byte) l t,
            well_formed t /\ t `sublist_of` l -> well_formed t /\ t `sublist_of` x :: l).
  { intros x l t [Hw Hs]. split; [done | by apply sublist_cons]. }
  destruct (byte_in 0 127 c) eqn:E1.
  { rewrite bytes_cons, byte_of_ch. destruct H0 as [Hw Hs].
    split; [by apply wf_ascii | by apply sublist_skip]. }
  destruct (byte_in 194 223 c) eqn:E2.
  { destruct r0 as [|c1 r1]; [apply Hnil|]. simpl in Hn.
    assert (H1 := IH r1 ltac:(lia)).
    destruct (byte_in 128 191 c1) eqn:F1; [|by apply Hdrop].
    rewrite !bytes_cons, !byte_of_ch. destruct H1 as [Hw Hs].
    split; [by apply wf_two | by do 2 apply sublist_skip]. }
  destruct (byte_in 224 239 c) eqn:E3.
  { destruct r0 as [|c1 r1]; [apply Hnil|]. simpl in Hn.
    assert (H1 := IH r1 ltac:(lia)).
    destruct (second_ok c c1) eqn:F1; [|by apply Hdrop].
    destruct r1 as [|c2 r2]; [apply Hnil|]. simpl in Hn.
    assert (H2 := IH r2 ltac:(lia)).
    destruct (byte_in 128 191 c2) eqn:F2; [|by apply Hdrop, Hdrop].
    rewrite !bytes_cons, !byte_of_ch. destruct H2 as [Hw Hs].
    split; [by apply well_formed_three | by do 3 apply sublist_skip]. }
  destruct (byte_in 240 244 c) eqn:E4.
  { destruct r0 as [|c1 r1]; [apply Hnil|]. simpl in Hn.
    assert (H1 := IH r1 ltac:(lia)).
    destruct (second_ok c c1) eqn:F1; [|by apply Hdrop].
    destruct r1 as [|c2 r2]; [apply Hnil|]. simpl in Hn.
    assert (H2 := IH r2 ltac:(lia)).
    destruct (byte_in 128 191 c2) eqn:F2; [|by apply Hdrop, Hdrop].
    destruct r2 as [|c3 r3]; [apply Hnil|]. simpl in Hn.
    assert (H3 := IH r3 ltac:(lia)).
    destruct (byte_in 128 191 c3) eqn:F3; [|by apply Hdrop, Hdrop, Hdrop].
    rewrite !bytes_cons, !byte_of_ch. destruct H3 as [Hw Hs].
    split; [by apply well_formed_four | by do 4 apply sublist_skip]. }
  by apply Hdrop.
Qed.

(** A well-formed sequence is kept whole. *)
Lemma utf8_decode_well_formed (b : list Byte.byte) :
  well_formed b -> utf8_decode_ignore b = string_of_list_byte b.
Proof.
  assert (Hlow : forall lo hi c, byte_in lo hi c = true -> (128 <= lo)%N ->
                                 byte_in 0 127 c = false).
  { intros lo hi c H Hlo. apply byte_in_iff in H. apply byte_in_not. lia. }
  assert (Hout : forall lo hi lo' hi' c,
            byte_in lo hi c = true -> (hi < lo' \/ hi' < lo)%N ->
            byte_in lo' hi' c = false).
  { intros lo hi lo' hi' c H Hd. apply byte_in_iff in H. apply byte_in_not. lia. }
  assert (Hin : forall lo hi lo' hi' c,
            byte_in lo hi c = true -> (lo' <= lo /\ hi <= hi')%N ->
            byte_in lo' hi' c = true).
  { intros lo hi lo' hi' c H Hd. apply byte_in_iff in H. apply byte_in_iff. lia. }
  assert (Hsec : forall c c1,
            (Byte.to_N c = 224 /\ byte_in 160 191 c1 = true)%N \/
            (Byte.to_N c = 237 /\ byte_in 128 159 c1 = true)%N \/
            (Byte.to_N c = 240 /\ byte_in 144 191 c1 = true)%N \/
            (Byte.to_N c = 244 /\ byte_in 128 143 c1 = true)%N \/
            (Byte.to_N c <> 224 /\ Byte.to_N c <> 237 /\ Byte.to_N c <> 240 /\
             Byte.to_N c <> 244 /\ byte_in 128 191 c1 = true)%N ->
            second_ok c c1 = true).
  { intros c c1. apply second_ok_iff. }
  induction 1 as [|c r Hc _ IH
                  |c c1 r Hc Hc1 _ IH
                  |c c1 c2 r Hc Hc1 Hc2 _ IH|c c1 c2 r Hc Hc1 Hc2 _ IH
                  |c c1 c2 r Hc Hc1 Hc2 _ IH|c c1 c2 r Hc Hc1 Hc2 _ IH
                  |c c1 c2 c3 r Hc Hc1 Hc2 Hc3 _ IH|c c1 c2 c3 r Hc Hc1 Hc2 Hc3 _ IH
                  |c c1 c2 c3 r Hc Hc1 Hc2 Hc3 _ IH];
    cbn [utf8_decode_ignore string_of_list_byte].
  - reflexivity.
  - by rewrite Hc, IH.
  - rewrite (Hlow _ _ _ Hc) by lia. rewrite Hc, Hc1, IH. reflexivity.
  - rewrite (Hlow _ _ _ Hc), (Hout _ _ 194%N 223%N _ Hc),
            (Hin _ _ 224%N 239%N _ Hc) by lia. rewrite Hc2, IH.
    rewrite Hsec; [reflexivity|]. apply byte_in_iff in Hc. left. split; [lia|done].
  - rewrite (Hlow _ _ _ Hc), (Hout _ _ 194%N 223%N _ Hc),
            (Hin _ _ 224%N 239%N _ Hc) by lia. rewrite Hc2, IH.
    rewrite Hsec; [reflexivity|]. apply byte_in_iff in Hc.
    right. right. right. right. repeat split; try lia. done.
  - rewrite (Hlow _ _ _ Hc), (Hout _ _ 194%N 223%N _ Hc),
            (Hin _ _ 224%N 239%N _ Hc) by lia. rewrite Hc2, IH.
    rewrite Hsec; [reflexivity|]. apply byte_in_iff in Hc. right. left. split; [lia|done].
  - rewrite (Hlow _ _ _ Hc), (Hout _ _ 194%N 223%N _ Hc),
            (Hin _ _ 224%N 239%N _ Hc) by lia. rewrite Hc2, IH.
    rewrite Hsec; [reflexivity|]. apply byte_in_iff in Hc.
    right. right. right. right. repeat split; try lia. done.
  - rewrite (Hlow _ _ _ Hc), (Hout _ _ 194%N 223%N _ Hc),
            (Hout _ _ 224%N 239%N _ Hc),
            (Hin _ _ 240%N 244%N _ Hc) by lia. rewrite Hc2, Hc3, IH.
    rewrite Hsec; [reflexivity|]. apply byte_in_iff in Hc.
    right. right. left. split; [lia|done].
  - rewrite (Hlow _ _ _ Hc), (Hout _ _ 194%N 223%N _ Hc),
            (Hout _ _ 224%N 239%N _ Hc),
            (Hin _ _ 240%N 244%N _ Hc) by lia. rewrite Hc2, Hc3, IH.
    rewrite Hsec; [reflexivity|]. apply byte_in_iff in Hc.
    right. right. right. right. repeat split; try lia. done.
  - rewrite (Hlow _ _ _ Hc), (Hout _ _ 194%N 223%N _ Hc),
            (Hout _ _ 224%N 239%N _ Hc),
            (Hin _ _ 240%N 244%N _ Hc) by lia. rewrite Hc2, Hc3, IH.
    rewrite Hsec; [reflexivity|]. apply byte_in_iff in Hc.
    right. right. right. left. split; [lia|done].
Qed.

(** X10: a byte-sequence value of the general branch is stored as a text
    that is well-formed UTF-8, whatever the bytes were: nothing ill-formed
    is left in it.  The text is what is left of the value when bytes are
    taken out of it, none added or moved, and a well-formed value is
    stored whole. *)
Theorem utf8_decode_ignore_cleans (b : list Byte.byte) (metadata : pydict) :
  exists text,
    coerce_value (VBytes b) metadata = (metadata, Ret (VStr text)) /\
    well_formed (list_byte_of_string text) /\
    list_byte_of_string text `sublist_of` b /\
    (well_formed b -> text = string_of_list_byte b).
Proof.
  exists (utf8_decode_ignore b).
  destruct (utf8_decode_ignore_facts (length b) b (le_n _)) as [Hw Hs].
  split; [reflexivity|]. split; [done|]. split; [done|].
  apply utf8_decode_well_formed.
Qed.

(** The bytes of [é] between an [A] and a stray [0xff]: the stray byte is
    taken out, the two bytes of the letter stay. *)
Lemma utf8_decode_ignore_cleans_witness :
  coerce_value (VBytes [Byte.x41; Byte.xc3; Byte.xa9; Byte.xff]) [] =
    ([], Ret (VStr (string_of_list_byte [Byte.x41; Byte.xc3; Byte.xa9]))) /\
  coerce_value (VBytes [Byte.x41; Byte.xc3; Byte.xa9]) [] =
    ([], Ret (VStr (string_of_list_byte [Byte.x41; Byte.xc3; Byte.xa9]))).
Proof.
  split; [reflexivity|].
  destruct (utf8_decode_ignore_cleans [Byte.x41; Byte.xc3; Byte.xa9] [])
    as (text & Hrun & _ & _ & Hwhole).
  rewrite Hrun, Hwhole; [reflexivity|].
  apply wf_ascii; [reflexivity|]. apply wf_two; [reflexivity | reflexivity | constructor].
Defined.

(** ** What a call of the stripper touches *)

Section StripperMore.
Context {P : Pillow}.

Lemma worked_on_refl path w : worked_on path w w.
Proof.
  repeat split; try done; try apply extends_refl. set_solver.
Qed.

Lemma display_metadata_extends metadata label out :
  extends out (fst (display_metadata metadata label out)).
Proof.
  destruct (dict_is_empty metadata) eqn:E.
  - unfold display_metadata. rewrite E. apply extends_print.
  - eapply extends_trans; [|by apply display_metadata_header]. by eexists.
Qed.

Lemma keeps_on_stdout {A} path w0 (m : SE (list string) A) :
  (forall out, extends out (fst (m out))) ->
  keeps (worked_on path w0) (on_stdout m).
Proof.
  intros Hm w (Hfs & Hp1 & Hp2 & Hout & Herr & Hclock). unfold on_stdout.
  specialize (Hm (w_stdout w)). destruct (m (w_stdout w)) as [out r]. simpl in *.
  repeat split; try done. by eapply extends_trans.
Qed.

Lemma keeps_pure {A} (Inv : world -> Prop) (f : world -> outcome A) :
  keeps Inv (fun w => (w, f w)).
Proof. by intros w. Qed.

Lemma normalize_mode_world img w : fst (normalize_mode img w) = w.
Proof.
  unfold normalize_mode, bind, lift_outcome, ret.
  repeat match goal with
         | |- context [if ?b then _ else _] => destruct b
         | |- context [match ?o with Ret _ => _ | Raise _ => _ end] => destruct o
         end; done.
Qed.

Lemma keeps_img_save path w0 img format options :
  keeps (worked_on path w0) (img_save img path format options).
Proof.
  unfold img_save. apply keeps_bind; [apply keeps_lift|]. intros _.
  intros w (Hfs & Hp1 & Hp2 & Hout & Herr & Hclock).
  destruct (save img format options) as [data r].
  destruct (w_fs w !! path) as [f|]; [|destruct r as [[]|e]]; simpl;
    repeat split; try done; intros p Hp; simpl; rewrite lookup_insert_ne by done;
    by apply Hfs.
Qed.

Lemma keeps_reencode path w0 : keeps (worked_on path w0) (reencode path).
Proof.
  unfold reencode. apply keeps_bind; [apply keeps_pure|]. intros img.
  apply keeps_bind.
  - intros w Hw. by rewrite normalize_mode_world.
  - intros img'. unfold save_by_suffix.
    repeat case_match; try apply keeps_img_save. apply keeps_ret.
Qed.

Lemma keeps_os_utime path w0 times : keeps (worked_on path w0) (os_utime path times).
Proof.
  intros w (Hfs & Hp1 & Hp2 & Hout & Herr & Hclock). unfold os_utime.
  destruct (w_fs w !! path) as [f|]; simpl; [|done].
  repeat split; try done. intros p Hp. simpl. rewrite lookup_insert_ne by done.
  by apply Hfs.
Qed.

Lemma keeps_clean path w0 : keeps (worked_on path w0) (clean_image_metadata path).
Proof.
  unfold clean_image_metadata. apply keeps_try.
  - unfold clean_image_metadata_body.
    destruct (negb (is_image_file path)); [apply keeps_ret|].
    apply keeps_bind; [apply keeps_pure|]. intros [|]; [apply keeps_ret|].
    apply keeps_bind; [apply keeps_on_stdout, extends_print|]. intros _.
    apply keeps_bind; [apply keeps_on_stdout, extends_print|]. intros _.
    apply keeps_bind; [apply keeps_pure|]. intros before.
    apply keeps_bind; [apply keeps_on_stdout, display_metadata_extends|]. intros _.
    apply keeps_bind.
    { intros w Hw. unfold os_path_getmtime. by destruct (w_fs w !! path). }
    intros mtime.
    apply keeps_bind; [apply keeps_reencode|]. intros _.
    apply keeps_bind; [apply keeps_os_utime|]. intros _.
    apply keeps_bind; [apply keeps_pure|]. intros after.
    apply keeps_bind; [apply keeps_on_stdout, display_metadata_extends|]. intros _.
    apply keeps_bind.
    { intros w (Hfs & Hp1 & Hp2 & Hout & Herr & Hclock).
      unfold modify, set_processed, worked_on.
      cbn [fst w_fs w_processed w_stdout w_stderr w_clock].
      split; [done|].
      split; [intros x Hx; apply elem_of_union; right; by apply Hp1|].
      split; [|done].
      intros x Hx. apply elem_of_union in Hx as [Hx|Hx]; [|by apply Hp2].
      apply elem_of_union. by left. }
    intros _.
    apply keeps_bind; [apply keeps_on_stdout, extends_print|]. intros _.
    apply keeps_bind; [apply keeps_on_stdout, extends_print|]. intros _.
    apply keeps_ret.
  - intros e. unfold on_clean_error.
    apply keeps_bind; [|intros; apply keeps_ret].
    intros w (Hfs & Hp1 & Hp2 & Hout & Herr & Hclock). simpl.
    repeat split; try done. eapply extends_trans; [exact Herr|]. by eexists.
Qed.

(** X11: a call never raises, whatever the path and the state of the
    files: it returns [True] or [False].  Whatever it returns, it has
    touched no file but the one at its path, has removed nothing from the
    processed set and added at most its path, and has only added lines to
    the two streams. *)
Theorem clean_never_raises_and_stays_on_path (path : string) (w : world) :
  exists w' result,
    clean_image_metadata path w = (w', Ret result) /\
    (forall p, p <> path -> w_fs w' !! p = w_fs w !! p) /\
    w_processed w ⊆ w_processed w' /\
    w_processed w' ⊆ {[ path ]} ∪ w_processed w /\
    extends (w_stdout w) (w_stdout w') /\
    extends (w_stderr w) (w_stderr w').
Proof.
  pose proof (keeps_clean path w w (worked_on_refl path w)) as Hk.
  assert (Hret : exists w' result, clean_image_metadata path w = (w', Ret result)).
  { unfold clean_image_metadata, try_except.
    destruct (clean_image_metadata_body path w) as [w1 [b|e]]; [eauto|].
    simpl. unfold on_clean_error, bind, print_err, modify, ret. eauto. }
  destruct Hret as (w' & result & Hrun). rewrite Hrun in Hk.
  destruct Hk as (Hfs & Hp1 & Hp2 & Hout & Herr & _). exists w', result. done.
Qed.

Lemma bind_cases {St A B} (m : SE St A) (k : A -> SE St B) s s' r :
  bind m k s = (s', r) ->
  (exists a s1, m s = (s1, Ret a) /\ k a s1 = (s', r)) \/
  (exists e, m s = (s', Raise e) /\ r = Raise e).
Proof.
  unfold bind. destruct (m s) as [s1 [a|e]]; [eauto|]. intros [= <- <-]. eauto.
Qed.

Lemma marks_nothing_on_stdout {A} (m : SE (list string) A) : marks_nothing (on_stdout m).
Proof. intros X w Hw. unfold on_stdout. by destruct (m (w_stdout w)). Qed.

Lemma marks_nothing_pure {A} (f : world -> outcome A) : marks_nothing (fun w => (w, f w)).
Proof. by intros X w. Qed.

Lemma marks_nothing_getmtime path : marks_nothing (os_path_getmtime path).
Proof. intros X w Hw. unfold os_path_getmtime. by destruct (w_fs w !! path). Qed.

Lemma marks_nothing_os_utime path times : marks_nothing (os_utime path times).
Proof. intros X w Hw. unfold os_utime. by destruct (w_fs w !! path). Qed.

Lemma marks_nothing_reencode path : marks_nothing (reencode path).
Proof.
  intros X. unfold reencode. apply keeps_bind; [apply keeps_pure|]. intros img.
  apply keeps_bind.
  - intros w Hw. by rewrite normalize_mode_world.
  - intros img'. unfold save_by_suffix. cbv zeta.
    assert (Hsave : forall format options,
              keeps (fun w => w_processed w = X) (img_save img' path format options)).
    { intros format options. unfold img_save.
      apply keeps_bind; [apply keeps_lift|]. intros _ w Hw.
      destruct (save _ _ _) as [data r].
      by destruct (w_fs w !! path) as [f|]; [|destruct r as [[]|e]]. }
    repeat (match goal with
            | |- keeps _ (if ?b then _ else _) => destruct b
            end; try apply Hsave).
    apply keeps_ret.
Qed.

(** A step that marks nothing, then a rest that returns [True] or marks
    nothing. *)
Lemma marks_on_true_bind {A} (m : SE world A) (k : A -> SE world bool) w w' r :
  marks_nothing m ->
  (forall a u u' r', k a u = (u', r') -> r' = Ret true \/ w_processed u' = w_processed u) ->
  bind m k w = (w', r) -> r = Ret true \/ w_processed w' = w_processed w.
Proof.
  intros Hm Hk Hb. specialize (Hm (w_processed w) w eq_refl).
  apply bind_cases in Hb as [(a & w1 & Hw & Hb)|(e & Hw & ->)];
    rewrite Hw in Hm; simpl in Hm.
  - destruct (Hk _ _ _ _ Hb) as [?|Hp]; [by left | right; congruence].
  - by right.
Qed.

(** The [try] block of the stripper returns [True] or leaves the
    processed set as it was. *)
Lemma clean_body_marks_on_true path w w' r :
  clean_image_metadata_body path w = (w', r) ->
  r = Ret true \/ w_processed w' = w_processed w.
Proof.
  unfold clean_image_metadata_body.
  destruct (negb (is_image_file path)); [intros [= <- _]; by right|].
  apply marks_on_true_bind; [apply marks_nothing_pure|]. intros seen u u' r'.
  destruct seen; [intros [= <- _]; by right|]. clear.
  revert u u' r'.
  intros u u' r'. apply marks_on_true_bind; [apply marks_nothing_on_stdout|]. clear.
  intros _ u u' r'. apply marks_on_true_bind; [apply marks_nothing_on_stdout|]. clear.
  intros _ u u' r'. apply marks_on_true_bind; [apply marks_nothing_pure|]. clear.
  intros before u u' r'. apply marks_on_true_bind; [apply marks_nothing_on_stdout|]. clear.
  intros _ u u' r'. apply marks_on_true_bind; [apply marks_nothing_getmtime|]. clear.
  intros mtime u u' r'. apply marks_on_true_bind; [apply marks_nothing_reencode|]. clear.
  intros _ u u' r'. apply marks_on_true_bind; [apply marks_nothing_os_utime|]. clear.
  intros _ u u' r'. apply marks_on_true_bind; [apply marks_nothing_pure|]. clear.
  intros after u u' r'. apply marks_on_true_bind; [apply marks_nothing_on_stdout|]. clear.
  intros _ u u' r'. intros [= _ <-]. by left.
Qed.

(** X12: a path is in the processed set after a call exactly when it was
    in it before or the call returned [True]; a call that returned
    [False] has marked nothing, so a later notification for the path is
    worked on again. *)
Theorem clean_marks_exactly_on_true (path : string) (w w' : world) (result : bool) :
  clean_image_metadata path w = (w', Ret result) ->
  (path ∈ w_processed w' <-> path ∈ w_processed w \/ result = true) /\
  (result = false -> w_processed w' = w_processed w).
Proof.
  intros H.
  assert (Hfalse : result = false -> w_processed w' = w_processed w).
  { intros ->. unfold clean_image_metadata, try_except in H.
    destruct (clean_image_metadata_body path w) as [w1 [b|e]] eqn:Hbody.
    - injection H as <- ->.
      by destruct (clean_body_marks_on_true _ _ _ _ Hbody) as [[=]|?].
    - simpl in H. injection H as <-.
      by destruct (clean_body_marks_on_true _ _ _ _ Hbody) as [[=]|?]. }
  split; [|exact Hfalse].
  destruct result.
  - apply clean_returns_true in H
      as (_ & _ & f & img & fmt & opts & data & w0 & w1 & w2 &
          _ & _ & _ & _ & _ & _ & _ & _ & _ & ->).
    split; [by right|]. intros _. apply elem_of_union. left. by apply elem_of_singleton.
  - rewrite (Hfalse eq_refl). split; [by left | by intros [?|[=]]].
Qed.
End StripperMore.

(** The photo is marked after its first call and the text file is not. *)
Lemma clean_marks_exactly_on_true_witness :
  ("in/photo.jpg" ∈ w_processed (fst (clean_image_metadata "in/photo.jpg" Small.photo_world))
   <-> "in/photo.jpg" ∈ w_processed Small.photo_world \/ true = true) /\
  (true = false ->
   w_processed (fst (clean_image_metadata "in/photo.jpg" Small.photo_world)) =
   w_processed Small.photo_world).
Proof.
  apply (clean_marks_exactly_on_true (P := Small.small_pillow) "in/photo.jpg"
           Small.photo_world).
  vm_compute. reflexivity.
Defined.

(** ** Calls that stop before the file is written *)

Lemma display_error_only (e : exn) (label : string) (out : list string) :
  display_metadata [(KStr "Error", VStr (exn_msg e))] label out =
    ((out ++ ["  " +:+ label +:+ ":";
              "    Error: " +:+ shown_value (VStr (exn_msg e))])%list, Ret tt).
Proof.
  unfold display_metadata. cbn [dict_is_empty].
  unfold bind. rewrite print_appends. cbn [lift_outcome sorted sorted_onto insert_item].
  unfold lift_outcome. rewrite for_each_cons. cbn [fst snd].
  rewrite display_item_line by (done || discriminate).
  cbn [for_each]. unfold ret. rewrite <- app_assoc. reflexivity.
Qed.

Section StoppedCalls.
Context {P : Pillow}.

Lemma w_fs_set_stdout out w : w_fs (set_stdout out w) = w_fs w.
Proof. reflexivity. Qed.

(** A call whose first report raises stops there. *)
Lemma clean_stops_at_first_report path w before out e :
  is_image_file path = true -> path ∉ w_processed w ->
  get_metadata_of (open_image w path) = Ret before ->
  display_metadata before "Metadata BEFORE cleaning"
                   (w_stdout w ++ opening_lines path)%list = (out, Raise e) ->
  clean_image_metadata path w = (stopped w path out e, Ret false).
Proof.
  intros Hsup Hnew Hbefore Hshow.
  unfold clean_image_metadata, try_except, clean_image_metadata_body.
  rewrite Hsup. cbn [negb]. unfold bind at 1. unfold gets.
  rewrite (bool_decide_eq_false_2 _ Hnew).
  unfold bind, on_stdout, get_metadata. rewrite !print_appends.
  cbn [w_stdout set_stdout w_fs open_image].
  change (open_image (set_stdout ?o (set_stdout ?o' w)) path) with (open_image w path).
  rewrite Hbefore. unfold opening_lines in Hshow.
  rewrite <- app_assoc. cbn [app]. rewrite Hshow. reflexivity.
Qed.

Lemma unknown_tag_in_snapshot (img : image) exifdata tag_id value metadata :
  TAGS tag_id = None -> getexif img = Ret exifdata ->
  In (tag_id, Ret value) exifdata ->
  get_metadata_body (Ret img) [] = (metadata, Ret tt) ->
  In (KInt tag_id) (dict_keys metadata) /\ In (KStr "Image Format") (dict_keys metadata).
Proof.
  intros Htag Hexif Hin Hbody. split.
  - unfold get_metadata_body, bind, lift_outcome in Hbody. rewrite Hexif in Hbody.
    destruct (gps_prepass img exifdata []) as [s1 [flag|e]]; [|discriminate].
    destruct (process_tags exifdata flag s1) as [s2 [[]|e]] eqn:Htags; [|discriminate].
    rewrite store_image_info_run in Hbody. injection Hbody as <-.
    do 3 (apply dict_set_keys; right).
    unfold process_tags in Htags.
    destruct exifdata as [|item rest]; [destruct Hin|].
    change (for_each (item :: rest) (tag_step flag) s1 = (s2, Ret tt)) in Htags.
    exact (tag_steps_store_unknown flag tag_id value _ _ _ Htags Hin Htag).
  - apply dict_mem_keys. eapply body_returns_info; [exact Hbody | by left].
Qed.

(** X13: a supported, unprocessed file whose tag table holds an id [TAGS]
    has no name for is never stripped: when its extraction runs through,
    the call returns [False] after the header of the first report, the
    files and the processed set are as they were, and the error stream
    has one more line, for the [TypeError] of the report. *)
Theorem unknown_tag_blocks_strip (w : world) (path : string) (f : file) (img : image)
    (exifdata : list (Z * outcome pyval)) (tag_id : Z) (value : pyval)
    (metadata : pydict) :
  is_image_file path = true -> path ∉ w_processed w ->
  w_fs w !! path = Some f -> Image_open (f_data f) = Ret img ->
  getexif img = Ret exifdata -> In (tag_id, Ret value) exifdata ->
  TAGS tag_id = None ->
  get_metadata_body (Ret img) [] = (metadata, Ret tt) ->
  exists w' msg,
    clean_image_metadata path w = (w', Ret false) /\
    w_fs w' = w_fs w /\ w_processed w' = w_processed w /\
    w_stdout w' = (w_stdout w ++ opening_lines path ++
                   ["  Metadata BEFORE cleaning:"])%list /\
    w_stderr w' = (w_stderr w ++
                   [error_banner +:+ path +:+ ": " +:+ msg])%list.
Proof.
  intros Hsup Hnew Hf Hopen Hexif Hin Htag Hbody.
  destruct (unknown_tag_in_snapshot _ _ _ _ _ Htag Hexif Hin Hbody) as [Hk1 Hk2].
  destruct (display_mixed_keys metadata tag_id "Image Format"
              "Metadata BEFORE cleaning" (w_stdout w ++ opening_lines path)%list Hk1 Hk2)
    as [msg Hshow].
  eexists _, msg. split.
  - eapply clean_stops_at_first_report; [done | done | | exact Hshow].
    unfold open_image. rewrite Hf, Hopen, get_metadata_of_cases. by rewrite Hbody.
  - cbn. split; [done|]. split; [done|]. split; [|done]. by rewrite <- app_assoc.
Qed.

(** X14: a supported, unprocessed path whose file is missing or does not
    open is left alone: the call prints the opening lines and the report
    of the [Error] snapshot, returns [False], writes the error to the
    error stream, and changes no file and not the processed set. *)
Theorem unreadable_file_is_left_alone (w : world) (path : string) (e : exn) :
  is_image_file path = true -> path ∉ w_processed w ->
  open_image w path = Raise e ->
  clean_image_metadata path w =
    (stopped w path
       (w_stdout w ++ opening_lines path ++
        ["  Metadata BEFORE cleaning:";
         "    Error: " +:+ shown_value (VStr (exn_msg e))])%list e,
     Ret false).
Proof.
  intros Hsup Hnew Hopen.
  unfold clean_image_metadata, try_except, clean_image_metadata_body.
  rewrite Hsup. cbn [negb]. unfold bind at 1. unfold gets.
  rewrite (bool_decide_eq_false_2 _ Hnew).
  unfold bind, on_stdout, get_metadata. rewrite !print_appends.
  cbn [w_stdout set_stdout w_fs open_image].
  change (open_image (set_stdout ?o (set_stdout ?o' w)) path) with (open_image w path).
  rewrite Hopen, get_metadata_of_cases.
  unfold get_metadata_body, bind, lift_outcome. cbn [fst snd].
  change (dict_set [] (KStr "Error") (VStr (exn_msg e)))
    with [(KStr "Error", VStr (exn_msg e))].
  rewrite display_error_only. cbn [w_stdout set_stdout].
  unfold os_path_getmtime, reencode, bind. rewrite !w_fs_set_stdout.
  unfold open_image in Hopen.
  destruct (w_fs w !! path) as [f|] eqn:Hf.
  - unfold open_image. rewrite !w_fs_set_stdout, Hf, Hopen.
    unfold stopped, any_Exception, on_clean_error, bind, print_err, modify, ret.
    cbn. rewrite <- !app_assoc. reflexivity.
  - injection Hopen as <-.
    unfold stopped, any_Exception, on_clean_error, bind, print_err, modify, ret.
    cbn. rewrite <- !app_assoc. reflexivity.
Qed.
End StoppedCalls.

(** A photo with the private tag 65000 is refused. *)
Lemma unknown_tag_blocks_strip_witness :
  exists w' msg,
    clean_image_metadata "in/raw.jpg"
      (Small.one_file "in/raw.jpg" Small.private_tag_jpeg 1000 900 2000) = (w', Ret false) /\
    w_fs w' = w_fs (Small.one_file "in/raw.jpg" Small.private_tag_jpeg 1000 900 2000) /\
    w_processed w' = ∅ /\
    w_stdout w' = ([] ++ opening_lines "in/raw.jpg" ++ ["  Metadata BEFORE cleaning:"])%list /\
    w_stderr w' = ([] ++ [error_banner +:+ "in/raw.jpg" +:+ ": " +:+ msg])%list.
Proof.
  apply (unknown_tag_blocks_strip (P := Small.small_pillow)
           (Small.one_file "in/raw.jpg" Small.private_tag_jpeg 1000 900 2000)
           "in/raw.jpg" (@File Small.small_pillow (Ret Small.private_tag_jpeg) 1000 900)
           Small.private_tag_jpeg
           [(271%Z, Ret (VStr "AcmeCorp")); (65000%Z, Ret (VInt 7))] 65000 (VInt 7)
           [(KStr "Make", VStr "AcmeCorp"); (KInt 65000, VInt 7);
            (KStr "Image Format", VStr "JPEG"); (KStr "Image Mode", VStr "RGB");
            (KStr "Image Size", VTuple [VInt 640; VInt 480])]).
  - vm_compute. reflexivity.
  - vm_compute. intros H. discriminate H.
  - vm_compute. reflexivity.
  - reflexivity.
  - reflexivity.
  - right. by left.
  - reflexivity.
  - reflexivity.
Defined.

(** A notification for a file that is gone by the time it is handled. *)
Lemma unreadable_file_is_left_alone_witness :
  clean_image_metadata "in/gone.jpg" Small.photo_world =
    (stopped Small.photo_world "in/gone.jpg"
       ([] ++ opening_lines "in/gone.jpg" ++
        ["  Metadata BEFORE cleaning:";
         "    Error: " +:+ shown_value (VStr (exn_msg (no_such_file "in/gone.jpg")))])%list
       (no_such_file "in/gone.jpg"),
     Ret false).
Proof.
  apply (unreadable_file_is_left_alone (P := Small.small_pillow) Small.photo_world
           "in/gone.jpg" (no_such_file "in/gone.jpg")).
  - vm_compute. reflexivity.
  - vm_compute. intros H. discriminate H.
  - vm_compute. reflexivity.
Defined.

(** ** What a successful call has written *)

Section WrittenFile.
Context {P : Pillow}.

Lemma normalize_mode_rgb img w w' img' :
  modes_honoured ->
  normalize_mode img w = (w', Ret img') ->
  img_mode img' = "RGB" /\ img_size img' = img_size img.
Proof.
  intros (Hnew & Hconv & Hpaste). unfold normalize_mode, bind, lift_outcome, ret.
  destruct (mode_in (img_mode img) ["RGBA"; "LA"; "P"]).
  - intros H.
    assert (Hp : exists src mask,
              paste (Image_new "RGB" (img_size img) (255, 255, 255)%Z) src mask = Ret img').
    { destruct (String.eqb (img_mode img) "P").
      - destruct (convert img "RGBA") as [i|e]; [|discriminate].
        destruct (mode_in (img_mode i) ["RGBA"; "LA"]).
        + destruct (split_last i) as [band|e]; [|discriminate].
          destruct (paste _ i (Some band)) eqn:E; [|discriminate].
          injection H as _ <-. eauto.
        + destruct (paste _ i None) eqn:E; [|discriminate].
          injection H as _ <-. eauto.
      - destruct (mode_in (img_mode img) ["RGBA"; "LA"]).
        + destruct (split_last img) as [band|e]; [|discriminate].
          destruct (paste _ img (Some band)) eqn:E; [|discriminate].
          injection H as _ <-. eauto.
        + destruct (paste _ img None) eqn:E; [|discriminate].
          injection H as _ <-. eauto. }
    destruct Hp as (src & mask & Hp). apply Hpaste in Hp as [-> ->].
    apply Hnew.
  - destruct (String.eqb_spec (img_mode img) "RGB") as [Heq|Hne]; simpl.
    + by intros [= _ <-].
    + destruct (convert img "RGB") as [i|e] eqn:E; [|discriminate].
      intros [= _ <-]. by apply Hconv in E.
Qed.

(** What a call that returned [True] has read, encoded and written. *)
Lemma clean_true_details path w w' :
  clean_image_metadata path w = (w', Ret true) ->
  exists f img0 u img format options data,
    w_fs w !! path = Some f /\
    Image_open (f_data f) = Ret img0 /\
    normalize_mode img0 u = (u, Ret img) /\
    container_for (lower (path_suffix path)) format options /\
    save img format options = (data, Ret tt) /\
    w_fs w' !! path = Some (File data (f_mtime f) (f_mtime f)).
Proof.
  unfold clean_image_metadata, try_except.
  destruct (clean_image_metadata_body path w) as [w0 [b|e]] eqn:Hbody;
    [|intros [=]].
  intros [= -> ->]. unfold clean_image_metadata_body in Hbody.
  destruct (is_image_file path) eqn:Hsup; [|discriminate]. simpl in Hbody.
  apply bind_returns in Hbody as (seen & w1 & Hseen & H).
  injection Hseen as <- <-.
  destruct (bool_decide (path ∈ w_processed w)); [discriminate|].
  apply bind_returns in H as (? & w1 & H1 & H). apply on_stdout_same_files in H1.
  apply bind_returns in H as (? & w2 & H2 & H). apply on_stdout_same_files in H2.
  apply bind_returns in H as (before & w3 & H3 & H). injection H3 as <- _.
  apply bind_returns in H as (? & w4 & H4 & H). apply on_stdout_same_files in H4.
  apply bind_returns in H as (t & w5 & H5 & H).
  apply os_path_getmtime_returns in H5 as (-> & f & Hf & ->).
  apply bind_returns in H as ([] & w6 & H6 & H).
  unfold reencode in H6.
  apply bind_returns in H6 as (img0 & w6a & Hopen & H6).
  injection Hopen as <- Hopen.
  apply bind_returns in H6 as (img & w6b & Hnorm & H6).
  pose proof (normalize_mode_same _ _ _ _ Hnorm) as ->.
  destruct (save_by_suffix_saves img path w4 Hsup)
    as (format & options & Hcont & Hs).
  rewrite Hs in H6. unfold img_save in H6.
  apply bind_returns in H6 as ([] & w6c & Hload & H6).
  injection Hload as <- Hload.
  unfold open_image in Hopen. rewrite Hf in Hopen.
  destruct (save img format options) as [data r] eqn:Hsave.
  rewrite Hf in H6. injection H6 as <- ->.
  apply bind_returns in H as ([] & w7 & H7 & H).
  apply os_utime_returns in H7 as (f7 & Hf7 & ->). simpl in Hf7.
  rewrite lookup_insert_eq in Hf7. injection Hf7 as <-.
  apply bind_returns in H as (after & w8 & H8 & H). injection H8 as <- _.
  apply bind_returns in H as (? & w9 & H9 & H). apply on_stdout_same_files in H9.
  apply bind_returns in H as ([] & w10 & H10 & H). injection H10 as <-.
  apply bind_returns in H as (? & w11 & H11 & H). apply on_stdout_same_files in H11.
  apply bind_returns in H as (? & w12 & H12 & H). apply on_stdout_same_files in H12.
  injection H as <-.
  destruct H1 as (F1 & _), H2 as (F2 & _), H4 as (F4 & _),
    H9 as (F9 & _), H11 as (F11 & _), H12 as (F12 & _).
  rewrite F4, F2, F1 in Hf.
  exists f, img0, w4, img, format, options, data.
  split; [done|]. split; [done|]. split; [done|]. split; [done|]. split; [done|].
  rewrite F12, F11. simpl. rewrite F9. simpl. apply lookup_insert_eq.
Qed.

(** X15: after a call that returned [True] the file holds what the encoder
    gave for the container its suffix names, letter case aside, with the
    fixed options of that container: JPEG at quality 95 and optimized for
    [.jpg] and [.jpeg], optimized PNG, TIFF, WEBP at quality 95, BMP. *)
Theorem strip_keeps_container (w w' : world) (path : string) :
  clean_image_metadata path w = (w', Ret true) ->
  exists f' img format options,
    w_fs w' !! path = Some f' /\
    container_for (lower (path_suffix path)) format options /\
    save img format options = (f_data f', Ret tt).
Proof.
  intros H. apply clean_true_details in H
    as (f & img0 & u & img & format & options & data & _ & _ & _ & Hc & Hs & Hf').
  by exists (File data (f_mtime f) (f_mtime f)), img, format, options.
Qed.

(** X16: with a Pillow that honours modes and sizes, what a call that
    returned [True] has handed to the encoder is an image in mode [RGB]
    with the pixel dimensions of the image the file opened as. *)
Theorem strip_encodes_rgb_of_same_size (w w' : world) (path : string) :
  modes_honoured ->
  clean_image_metadata path w = (w', Ret true) ->
  exists f f' img0 img format options,
    w_fs w !! path = Some f /\ Image_open (f_data f) = Ret img0 /\
    img_mode img = "RGB" /\ img_size img = img_size img0 /\
    save img format options = (f_data f', Ret tt) /\
    w_fs w' !! path = Some f'.
Proof.
  intros Hmodes H. apply clean_true_details in H
    as (f & img0 & u & img & format & options & data & Hf & Ho & Hn & _ & Hs & Hf').
  destruct (normalize_mode_rgb _ _ _ _ Hmodes Hn) as [Hm Hsz].
  by exists f, (File data (f_mtime f) (f_mtime f)), img0, img, format, options.
Qed.
End WrittenFile.

Lemma small_modes_honoured : modes_honoured (P := Small.small_pillow).
Proof.
  split; [done|]. split.
  - by intros img mode img' [= <-].
  - by intros background img mask out [= <-].
Qed.

(** The PNG with an alpha channel is written as an optimized PNG. *)
Lemma strip_keeps_container_witness :
  exists f' img format options,
    w_fs (fst (clean_image_metadata "in/a.png" Small.alpha_png_world)) !! "in/a.png"
      = Some f' /\
    container_for (lower (path_suffix "in/a.png")) format options /\
    save img format options = (f_data f', Ret tt).
Proof.
  apply (strip_keeps_container (P := Small.small_pillow) Small.alpha_png_world).
  vm_compute. reflexivity.
Defined.

(** The PNG with an alpha channel is encoded from an RGB image of its size. *)
Lemma strip_encodes_rgb_of_same_size_witness :
  exists f f' img0 img format options,
    w_fs Small.alpha_png_world !! "in/a.png" = Some f /\
    Image_open (f_data f) = Ret img0 /\
    img_mode img = "RGB" /\ img_size img = img_size img0 /\
    save img format options = (f_data f', Ret tt) /\
    w_fs (fst (clean_image_metadata "in/a.png" Small.alpha_png_world)) !! "in/a.png"
      = Some f'.
Proof.
  apply (strip_encodes_rgb_of_same_size (P := Small.small_pillow) Small.alpha_png_world).
  - exact small_modes_honoured.
  - vm_compute. reflexivity.
Defined.

(** ** The suffix of a path *)

Lemma prefix_nil s : String.prefix "" s = true.
Proof. by destruct s. Qed.

Lemma has_char_cons c x s :
  has_char c (String x s) = Ascii.eqb c x || has_char c s.
Proof.
  unfold has_char. cbn [str_in]. f_equal. simpl.
  destruct (ascii_dec c x) as [->|Hne].
  - by rewrite prefix_nil, Ascii.eqb_refl.
  - symmetry. by apply Ascii.eqb_neq.
Qed.

Lemma has_char_app c a b : has_char c (a +:+ b) = has_char c a || has_char c b.
Proof.
  induction a as [|x a IH]; [done|].
  by rewrite append_cons, !has_char_cons, IH, orb_assoc.
Qed.

Lemma split_slash_nonempty s : split_slash s <> [].
Proof.
  destruct s as [|c s]; [done|]. cbn [split_slash].
  destruct (Ascii.eqb c "/"); [done|]. by destruct (split_slash s).
Qed.

Lemma split_slash_app a b :
  split_slash (a +:+ "/" +:+ b) = (split_slash a ++ split_slash b)%list.
Proof.
  induction a as [|c a IH].
  - reflexivity.
  - rewrite append_cons. cbn [split_slash]. rewrite IH.
    destruct (Ascii.eqb c "/"); [reflexivity|].
    pose proof (split_slash_nonempty a). by destruct (split_slash a).
Qed.

Lemma split_slash_plain s : has_char "/" s = false -> split_slash s = [s].
Proof.
  induction s as [|c s IH]; [done|]. rewrite has_char_cons.
  intros [Hc Hs]%orb_false_iff. cbn [split_slash].
  rewrite Ascii.eqb_sym in Hc. by rewrite Hc, (IH Hs).
Qed.

Lemma path_parts_app a b :
  path_parts (a +:+ "/" +:+ b) = (path_parts a ++ path_parts b)%list.
Proof. unfold path_parts. by rewrite split_slash_app, List.filter_app. Qed.

(** The name of a path that ends in a component. *)
Lemma path_name_after_slash dir name :
  has_char "/" name = false -> is_component name = true ->
  path_name (dir +:+ "/" +:+ name) = name.
Proof.
  intros Hname Hcomp. unfold path_name. rewrite path_parts_app.
  unfold path_parts at 2. rewrite (split_slash_plain _ Hname).
  cbn [List.filter]. rewrite Hcomp. apply last_last.
Qed.

(** An empty text or a single dot after the last separator is no
    component: the name is the one before it. *)
Lemma path_name_skips dir x :
  has_char "/" x = false -> is_component x = false ->
  path_name (dir +:+ "/" +:+ x) = path_name dir.
Proof.
  intros Hx Hcomp. unfold path_name. rewrite path_parts_app.
  unfold path_parts at 2. rewrite (split_slash_plain _ Hx).
  cbn [List.filter]. rewrite Hcomp. by rewrite app_nil_r.
Qed.

Lemma is_component_cons c s : s <> "" -> is_component (String c s) = true.
Proof.
  intros Hs. unfold is_component. cbn [String.eqb negb andb].
  destruct (Ascii.eqb c "."); [|done]. cbn [negb].
  destruct s; [done|reflexivity].
Qed.

Lemma from_last_dot_none s : has_char "." s = false -> from_last_dot s = None.
Proof.
  induction s as [|c s IH]; [done|]. rewrite has_char_cons.
  intros [Hc Hs]%orb_false_iff. cbn [from_last_dot]. rewrite (IH Hs).
  rewrite Ascii.eqb_sym in Hc. by rewrite Hc.
Qed.

Lemma from_last_dot_ext a ext :
  has_char "." ext = false ->
  from_last_dot (a +:+ "." +:+ ext) = Some ("." +:+ ext).
Proof.
  intros Hext. induction a as [|c a IH].
  - change ("" +:+ "." +:+ ext) with (String "." ext). cbn [from_last_dot].
    by rewrite (from_last_dot_none _ Hext).
  - rewrite append_cons. cbn [from_last_dot]. by rewrite IH.
Qed.

(** X17: the suffix is read off the last component of the path, as
    [Path] keeps it.  A name [stem.ext] with a non-empty stem and a
    non-empty [ext] without dots has the suffix [.ext], and is an image
    file exactly when [.ext] in small letters is a supported format,
    whatever the folder and the stem.  A name that starts with its only
    dot, a name that ends with its last dot and a name without a dot have
    no suffix; a name that starts with its only dot is no image file
    whatever follows the dot.  A separator at the end of the path, with
    or without a single dot after it, changes nothing. *)
Theorem suffix_of_last_component (dir stem ext : string) :
  has_char "/" stem = false -> has_char "/" ext = false ->
  has_char "." ext = false -> ext <> "" ->
  (stem <> "" ->
   path_suffix (dir +:+ "/" +:+ stem +:+ "." +:+ ext) = "." +:+ ext /\
   is_image_file (dir +:+ "/" +:+ stem +:+ "." +:+ ext) =
     bool_decide ("." +:+ lower ext ∈ SUPPORTED_FORMATS)) /\
  path_suffix (dir +:+ "/" +:+ "." +:+ ext) = "" /\
  is_image_file (dir +:+ "/" +:+ "." +:+ ext) = false /\
  (stem <> "" -> path_suffix (dir +:+ "/" +:+ stem +:+ ".") = "") /\
  path_suffix (dir +:+ "/" +:+ ext) = "" /\
  (forall p, path_suffix (p +:+ "/") = path_suffix p /\
             path_suffix (p +:+ "/" +:+ ".") = path_suffix p /\
             is_image_file (p +:+ "/") = is_image_file p /\
             is_image_file (p +:+ "/" +:+ ".") = is_image_file p).
Proof.
  intros Hstem Hext Hdot He.
  assert (Hdotfile : path_suffix (dir +:+ "/" +:+ "." +:+ ext) = "").
  { unfold path_suffix. rewrite path_name_after_slash.
    - change ("." +:+ ext) with (String "." ext). cbv beta iota.
      by rewrite from_last_dot_none.
    - change ("." +:+ ext) with (String "." ext). by rewrite has_char_cons.
    - change ("." +:+ ext) with (String "." ext). by apply is_component_cons. }
  assert (Hskip : forall p x, has_char "/" x = false -> is_component x = false ->
                    path_suffix (p +:+ "/" +:+ x) = path_suffix p).
  { intros p x Hx Hc. unfold path_suffix. by rewrite path_name_skips. }
  split; [|split; [exact Hdotfile|split; [|split; [|split]]]].
  - intros Hs.
    assert (Hsuffix : path_suffix (dir +:+ "/" +:+ stem +:+ "." +:+ ext) = "." +:+ ext).
    { unfold path_suffix. rewrite path_name_after_slash.
      + destruct stem as [|c stem]; [done|]. rewrite append_cons. cbv beta iota.
        rewrite from_last_dot_ext by done.
        destruct ext as [|x ext]; [done|]. reflexivity.
      + rewrite !has_char_app, Hstem, Hext. reflexivity.
      + destruct stem as [|c stem]; [done|]. rewrite append_cons.
        apply is_component_cons. by destruct stem.
    }
    split; [exact Hsuffix|]. unfold is_image_file. by rewrite Hsuffix.
  - unfold is_image_file. rewrite Hdotfile. reflexivity.
  - intros Hs. unfold path_suffix. rewrite path_name_after_slash.
    + destruct stem as [|c stem]; [done|]. rewrite append_cons. cbv beta iota.
      change (stem +:+ ".") with (stem +:+ "." +:+ "").
      rewrite from_last_dot_ext by done. reflexivity.
    + rewrite has_char_app, Hstem. reflexivity.
    + destruct stem as [|c stem]; [done|]. rewrite append_cons.
      apply is_component_cons. by destruct stem.
  - unfold path_suffix. rewrite path_name_after_slash.
    + destruct ext as [|x ext]; [done|]. rewrite has_char_cons in Hdot.
      apply orb_false_iff in Hdot as [_ Hdot]. cbv beta iota.
      by rewrite from_last_dot_none.
    + done.
    + destruct ext as [|x ext]; [done|]. rewrite has_char_cons in Hdot.
      apply orb_false_iff in Hdot as [Hx _]. unfold is_component.
      cbn [String.eqb negb andb]. rewrite Ascii.eqb_sym in Hx. by rewrite Hx.
  - intros p.
    assert (H1 : path_suffix (p +:+ "/") = path_suffix p).
    { change (p +:+ "/") with (p +:+ "/" +:+ ""). by apply Hskip. }
    assert (H2 : path_suffix (p +:+ "/" +:+ ".") = path_suffix p) by by apply Hskip.
    unfold is_image_file. by rewrite H1, H2.
Qed.

(** A photo in a folder whose name has a dot, and the same photo named
    with a separator and a dot after it. *)
Lemma suffix_of_last_component_witness :
  (path_suffix ("in.v2" +:+ "/" +:+ "holiday.final" +:+ "." +:+ "JPG") = "." +:+ "JPG" /\
   is_image_file ("in.v2" +:+ "/" +:+ "holiday.final" +:+ "." +:+ "JPG") =
     bool_decide ("." +:+ lower "JPG" ∈ SUPPORTED_FORMATS)) /\
  path_suffix ("a.jpg" +:+ "/" +:+ ".") = path_suffix "a.jpg" /\
  is_image_file ("a.jpg" +:+ "/" +:+ ".") = is_image_file "a.jpg".
Proof.
  destruct (suffix_of_last_component "in.v2" "holiday.final" "JPG")
    as (Hphoto & _ & _ & _ & _ & Hsep); try reflexivity; try discriminate.
  split; [apply Hphoto; discriminate|].
  destruct (Hsep "a.jpg") as (_ & Hs & _ & Hi). by split.
Defined.

(** ** A watch session *)

Section Session.
Context {P : Pillow}.

Lemma clean_returns path w :
  exists w' result, clean_image_metadata path w = (w', Ret result).
Proof.
  unfold clean_image_metadata, try_except.
  destruct (clean_image_metadata_body path w) as [w1 [b|e]]; [eauto|].
  simpl. unfold on_clean_error, bind, print_err, modify, ret. eauto.
Qed.

Lemma clean_skips_processed path w :
  path ∈ w_processed w -> clean_image_metadata path w = (w, Ret false).
Proof.
  intros H. unfold clean_image_metadata, try_except, clean_image_metadata_body.
  destruct (is_image_file path); simpl; [|done].
  unfold bind, gets. by rewrite (bool_decide_eq_true_2 _ H).
Qed.

(** A notification is handled without an exception; it leaves the world
    as it is when it names no path or a processed one, and else works on
    its path only. *)
Lemma deliver_step n w :
  exists w', deliver n w = (w', Ret tt) /\
    match path_worked_on n with
    | None => w' = w
    | Some path => (path ∈ w_processed w -> w' = w) /\ worked_on path w w'
    end.
Proof.
  assert (Hfile : forall path,
    exists w', (bind time_sleep (fun _ =>
                  bind (clean_image_metadata path) (fun _ => ret tt))) w = (w', Ret tt) /\
               (path ∈ w_processed w -> w' = w) /\ worked_on path w w').
  { intros path. destruct (clean_returns path w) as (w' & b & Hrun).
    exists w'. unfold bind, time_sleep, ret. rewrite Hrun. split; [done|]. split.
    - intros Hin. rewrite (clean_skips_processed _ _ Hin) in Hrun. congruence.
    - pose proof (keeps_clean path w w (worked_on_refl path w)) as Hk.
      by rewrite Hrun in Hk. }
  destruct n as [ev|ev]; simpl; unfold on_created, on_moved;
    destruct (is_directory ev); simpl; eauto.
Qed.

(** X18: a session handles every notification it is given, in order,
    without an exception.  Through the whole session the processed set
    only grows, a file that was processed when the session began is never
    written again, and a file no notification names, directory
    notifications aside, stays as it was. *)
Theorem session_rewrites_no_processed_file (ns : list notification) (w : world) :
  exists w',
    for_each ns deliver w = (w', Ret tt) /\
    w_processed w ⊆ w_processed w' /\
    (forall p, p ∈ w_processed w -> w_fs w' !! p = w_fs w !! p) /\
    (forall p, (forall n, In n ns -> path_worked_on n <> Some p) ->
               w_fs w' !! p = w_fs w !! p).
Proof.
  revert w. induction ns as [|n ns IH]; intros w.
  { exists w. split; [done|]. split; [done|]. split; done. }
  destruct (deliver_step n w) as (w1 & Hrun & Hstep).
  destruct (IH w1) as (w' & Hrest & Hmono & Hkept & Hother).
  exists w'. rewrite for_each_cons, Hrun. split; [exact Hrest|].
  assert (Hw1 : w_processed w ⊆ w_processed w1 /\
                (forall p, p ∈ w_processed w -> w_fs w1 !! p = w_fs w !! p) /\
                (forall p, path_worked_on n <> Some p -> w_fs w1 !! p = w_fs w !! p)).
  { destruct (path_worked_on n) as [path|]; [|by subst].
    destruct Hstep as [Hskip (Hfs & Hp1 & _)]. split; [done|]. split.
    - intros p Hp. destruct (decide (p = path)) as [->|Hne].
      + by rewrite (Hskip Hp).
      + by apply Hfs.
    - intros p Hp. apply Hfs. congruence. }
  destruct Hw1 as (Hm1 & Hk1 & Ho1).
  split; [by etrans|]. split.
  - intros p Hp. rewrite Hkept by (by apply Hm1). by apply Hk1.
  - intros p Hp. rewrite Hother.
    + apply Ho1. apply Hp. by left.
    + intros n' Hn'. apply Hp. by right.
Qed.
End Session.

(** The photo is created, then notified again as moved onto itself, and a
    folder is created: the second and third notifications change
    nothing. *)
Lemma session_rewrites_no_processed_file_witness :
  for_each [Created (Event false "in/photo.jpg" "");
            Moved (Event false "in/old.jpg" "in/photo.jpg");
            Created (Event true "in/album" "")]
           deliver Small.photo_world =
  (fst (clean_image_metadata "in/photo.jpg" Small.photo_world), Ret tt).
Proof.
  destruct (session_rewrites_no_processed_file (P := Small.small_pillow)
              [Created (Event false "in/photo.jpg" "");
               Moved (Event false "in/old.jpg" "in/photo.jpg");
               Created (Event true "in/album" "")] Small.photo_world)
    as (w' & Hrun & _).
  rewrite Hrun. vm_compute in Hrun. injection Hrun as <-. vm_compute. reflexivity.
Defined.

(** ** A write that fails *)

Section FailedWrite.
Context {P : Pillow}.

Lemma container_for_functional suffix format options format' options' :
  container_for suffix format options -> container_for suffix format' options' ->
  format = format' /\ options = options'.
Proof.
  unfold container_for. simpl.
  intros H H'.
  repeat match goal with
         | H : _ \/ _ |- _ => destruct H
         | H : _ /\ _ |- _ => destruct H
         | H : False |- _ => destruct H
         end; subst; try discriminate; done.
Qed.

Lemma normalize_mode_any_world img u w :
  normalize_mode img u = (u, snd (normalize_mode img w)).
Proof.
  unfold normalize_mode, bind, lift_outcome, ret.
  repeat match goal with
         | |- context [if ?b then _ else _] => destruct b
         | |- context [match ?o with Ret _ => _ | Raise _ => _ end] => destruct o
         end; done.
Qed.

(** X19: when [img.save] fails, nothing is rolled back, and where it
    fails decides what is left of the file.  When the pixels of the source
    do not decode, the target is never opened: the file is as it was.
    When the encoder raises after the target was opened, the file is left
    with what the encoder wrote and with the time of that write as its
    modification time, the earlier one not restored.  Either way the call
    returns [False], writes the error to the error stream, leaves the
    other files alone and does not mark the path processed. *)
Theorem failed_write_is_not_rolled_back (w : world) (path : string) (f : file)
    (img0 img : image) (before : pydict) (out : list string)
    (format : string) (options : save_options) :
  is_image_file path = true -> path ∉ w_processed w ->
  w_fs w !! path = Some f -> Image_open (f_data f) = Ret img0 ->
  get_metadata_of (Ret img0) = Ret before ->
  display_metadata before "Metadata BEFORE cleaning"
                   (w_stdout w ++ opening_lines path)%list = (out, Ret tt) ->
  snd (normalize_mode img0 w) = Ret img ->
  container_for (lower (path_suffix path)) format options ->
  (forall e, load img = Raise e ->
     clean_image_metadata path w = (stopped w path out e, Ret false)) /\
  (forall data e, load img = Ret tt -> save img format options = (data, Raise e) ->
     exists w',
       clean_image_metadata path w = (w', Ret false) /\
       (exists f', w_fs w' !! path = Some f' /\
                   f_data f' = data /\ f_mtime f' = w_clock w) /\
       (forall p, p <> path -> w_fs w' !! p = w_fs w !! p) /\
       w_processed w' = w_processed w /\
       w_stdout w' = out /\
       w_stderr w' = (w_stderr w ++ [error_banner +:+ path +:+ ": " +:+ exn_msg e])%list).
Proof.
  intros Hsup Hnew Hf Hopen Hbefore Hshow Hnorm Hcont.
  assert (Hrun : clean_image_metadata path w =
            match load img with
            | Raise e => (stopped w path out e, Ret false)
            | Ret _ =>
                let (data, r) := save img format options in
                match r with
                | Ret _ => clean_image_metadata path w
                | Raise e =>
                    (World (<[path := File data (w_clock w) (f_atime f)]> (w_fs w))
                           (w_processed w) out
                           (w_stderr w ++ [error_banner +:+ path +:+ ": " +:+ exn_msg e])%list
                           (w_clock w),
                     Ret false)
                end
            end).
  { destruct (load img) as [[]|e1] eqn:Hload;
      [destruct (save img format options) as [data [[]|e2]] eqn:Hsave; [reflexivity|]|];
      unfold clean_image_metadata, try_except, clean_image_metadata_body;
      rewrite Hsup; cbn [negb]; unfold bind at 1; unfold gets;
      rewrite (bool_decide_eq_false_2 _ Hnew);
      unfold bind, on_stdout, get_metadata; rewrite !print_appends;
      cbn [w_stdout set_stdout];
      change (open_image (set_stdout ?o (set_stdout ?o' w)) path) with (open_image w path);
      unfold open_image at 1; rewrite Hf, Hopen, Hbefore;
      unfold opening_lines in Hshow; rewrite <- app_assoc; cbn [app]; rewrite Hshow;
      unfold os_path_getmtime, reencode, bind; rewrite !w_fs_set_stdout, Hf;
      unfold open_image; rewrite !w_fs_set_stdout, Hf, Hopen;
      rewrite (normalize_mode_any_world img0 _ w), Hnorm;
      match goal with
      | |- context [save_by_suffix img path ?u] =>
          destruct (save_by_suffix_saves img path u Hsup) as (fmt' & opt' & Hc' & ->)
      end;
      destruct (container_for_functional _ _ _ _ _ Hcont Hc') as [<- <-];
      unfold img_save, bind, lift_outcome; rewrite Hload.
    - rewrite Hsave, !w_fs_set_stdout, Hf. reflexivity.
    - reflexivity. }
  split.
  - intros e He. by rewrite Hrun, He.
  - intros data e Hl Hs. rewrite Hrun, Hl, Hs. eexists. split; [reflexivity|].
    cbn [w_fs w_processed w_stdout w_stderr].
    split; [eexists; split; [apply lookup_insert_eq | done]|].
    split; [|done]. intros p Hp. by apply lookup_insert_ne.
Qed.
End FailedWrite.

(** The photo on the full disk is left truncated, stamped 2000 and not
    marked; the photo whose pixels do not decode is left as it was. *)
Lemma failed_write_is_not_rolled_back_witness :
  (exists w',
     clean_image_metadata (P := full_disk_pillow) "in/photo.jpg" photo_on_full_disk =
       (w', Ret false) /\
     (exists f', w_fs w' !! "in/photo.jpg" = Some f' /\
                 f_data f' = truncated_file /\ f_mtime f' = 2000%Z) /\
     w_processed w' = ∅ /\
     w_stderr w' = [error_banner +:+ "in/photo.jpg" +:+ ": " +:+ exn_msg disk_full]) /\
  w_fs (fst (clean_image_metadata (P := undecodable_pillow) "in/photo.jpg"
               photo_with_bad_pixels)) =
    w_fs photo_with_bad_pixels.
Proof.
  split.
  - destruct (failed_write_is_not_rolled_back (P := full_disk_pillow) photo_on_full_disk
                "in/photo.jpg" (File (P := full_disk_pillow) (Ret Small.tagged_jpeg) 1000 900)
                Small.tagged_jpeg Small.tagged_jpeg
                [(KStr "Make", VStr "AcmeCorp"); (KStr "Model", VStr "X100");
                 (KStr "GPSInfo",
                  VStr "IFD offset: 1234 (GPS data pointer, not actual GPS coordinates)");
                 (KStr "BodySerialNumber", VStr "SN123");
                 (KStr "Image Format", VStr "JPEG"); (KStr "Image Mode", VStr "RGB");
                 (KStr "Image Size", VTuple [VInt 640; VInt 480])]
                (fst (display_metadata
                   [(KStr "Make", VStr "AcmeCorp"); (KStr "Model", VStr "X100");
                    (KStr "GPSInfo",
                     VStr "IFD offset: 1234 (GPS data pointer, not actual GPS coordinates)");
                    (KStr "BodySerialNumber", VStr "SN123");
                    (KStr "Image Format", VStr "JPEG"); (KStr "Image Mode", VStr "RGB");
                    (KStr "Image Size", VTuple [VInt 640; VInt 480])]
                   "Metadata BEFORE cleaning" ([] ++ opening_lines "in/photo.jpg")%list))
                "JPEG" {| quality := Some 95%Z; optimize := true |})
      as [_ Hafter].
    + vm_compute. reflexivity.
    + vm_compute. intros H. discriminate H.
    + vm_compute. reflexivity.
    + reflexivity.
    + vm_compute. reflexivity.
    + vm_compute. reflexivity.
    + reflexivity.
    + left. split; [|done]. vm_compute. tauto.
    + destruct (Hafter truncated_file disk_full eq_refl eq_refl)
        as (w' & Hrun & Hfile & _ & Hmarked & _ & Herr).
      exists w'. split; [exact Hrun|]. split; [exact Hfile|]. split; [exact Hmarked|].
      exact Herr.
  - destruct (failed_write_is_not_rolled_back (P := undecodable_pillow)
                photo_with_bad_pixels
                "in/photo.jpg" (File (P := undecodable_pillow) (Ret Small.tagged_jpeg) 1000 900)
                Small.tagged_jpeg Small.tagged_jpeg
                [(KStr "Make", VStr "AcmeCorp"); (KStr "Model", VStr "X100");
                 (KStr "GPSInfo",
                  VStr "IFD offset: 1234 (GPS data pointer, not actual GPS coordinates)");
                 (KStr "BodySerialNumber", VStr "SN123");
                 (KStr "Image Format", VStr "JPEG"); (KStr "Image Mode", VStr "RGB");
                 (KStr "Image Size", VTuple [VInt 640; VInt 480])]
                (fst (display_metadata
                   [(KStr "Make", VStr "AcmeCorp"); (KStr "Model", VStr "X100");
                    (KStr "GPSInfo",
                     VStr "IFD offset: 1234 (GPS data pointer, not actual GPS coordinates)");
                    (KStr "BodySerialNumber", VStr "SN123");
                    (KStr "Image Format", VStr "JPEG"); (KStr "Image Mode", VStr "RGB");
                    (KStr "Image Size", VTuple [VInt 640; VInt 480])]
                   "Metadata BEFORE cleaning" ([] ++ opening_lines "in/photo.jpg")%list))
                "JPEG" {| quality := Some 95%Z; optimize := true |})
      as [Hbefore _].
    + vm_compute. reflexivity.
    + vm_compute. intros H. discriminate H.
    + vm_compute. reflexivity.
    + reflexivity.
    + vm_compute. reflexivity.
    + vm_compute. reflexivity.
    + reflexivity.
    + left. split; [|done]. vm_compute. tauto.
    + rewrite (Hbefore bad_pixels eq_refl). reflexivity.
Defined.
